(** * Lead-intake chatbot backend: salvage parser, contact detector, lifecycle

    A shallow embedding of [main.py] (the FastAPI service behind the
    WordPress chat widget) and the properties of its extraction and
    lead-lifecycle code, followed by [app.py], the first version of the
    service, which saves a lead by a qualification test instead.

    Conventions of the embedding.
    - A Python [str] is a [list ascii]; a character stands for the code
      point of the same number, so the texts covered are those of code
      points 0..255.  The classification tables of [str.isspace] and
      [str.isdigit] are written out for that range.
    - Text decoded by [json.loads] may hold any code point (through
      [\uXXXX] escapes), so a decoded string is a [list N].
    - Numbers decoded by [json.loads] are kept as the token matched in the
      text; no floating point arithmetic is performed on them.
    - The limits the interpreter puts on the decoder (the recursion
      depth left at the call, the depth building a [JSONDecodeError]
      takes, the digit limit of integer conversion) are parameters, a
      [json.Limits]; for the handlers they are a field of the [World].
      Memory is not limited.
    - The collaborators reached over the network (the chat-completion
      backend, the webhook, the clock and the UUID generator) are the
      fields of a [World]; every call is recorded in a trace of events.
      The prompts sent to the backend are functions of the transcript and
      are not spelled out: a completion is a function of the transcript. *)

From Stdlib Require Import List Ascii String ZArith NArith Bool Lia.
From Stdlib Require Import DecimalString.
Import ListNotations.

Local Open Scope char_scope.
Local Open Scope list_scope.

(** ** Python text *)

Definition pystr := list ascii.

(** [py "abc"] is the text [abc]. *)
Definition py (s : string) : pystr := list_ascii_of_string s.

(** The double-quote character. *)
Definition dquote : ascii := ascii_of_nat 34.

(** [pyq] reads a literal in which every apostrophe stands for a
    double quote, so that JSON texts can be written legibly. *)
Definition pyq (s : string) : pystr :=
  map (fun c => if Ascii.eqb c "'" then dquote else c) (py s).

Module str.

Definition code (c : ascii) : N := N_of_ascii c.

(** [str.isspace] on one character: TAB..CR, FS..US and SPACE, NEL, NBSP. *)
Definition isspace (c : ascii) : bool :=
  let n := code c in
  ((9 <=? n) && (n <=? 13) || (28 <=? n) && (n <=? 32)
   || (n =? 133) || (n =? 160))%N.

(** [str.isdigit] on one character: 0..9 and the superscripts 2, 3, 1. *)
Definition isdigit_char (c : ascii) : bool :=
  let n := code c in
  ((48 <=? n) && (n <=? 57) || (n =? 178) || (n =? 179) || (n =? 185))%N.

Fixpoint lstrip (s : pystr) : pystr :=
  match s with
  | [] => []
  | c :: r => if isspace c then lstrip r else s
  end.

Definition rstrip (s : pystr) : pystr := rev (lstrip (rev s)).

Definition strip (s : pystr) : pystr := rstrip (lstrip s).

Fixpoint startswith (s prefix : pystr) {struct prefix} : bool :=
  match prefix, s with
  | [], _ => true
  | _ :: _, [] => false
  | p :: prefix', c :: s' => Ascii.eqb c p && startswith s' prefix'
  end.

(** [s.replace(old, new)] for a non-empty [old]: occurrences are found
    from the left and do not overlap.  [skip] counts the characters of
    the occurrence just replaced that are still to be passed over. *)
Fixpoint replace_from (old new s : pystr) (skip : nat) : pystr :=
  match s with
  | [] => []
  | c :: r =>
      match skip with
      | S k => replace_from old new r k
      | O =>
          if startswith s old
          then new ++ replace_from old new r (List.length old - 1)
          else c :: replace_from old new r 0
      end
  end.

Definition replace (s old new : pystr) : pystr :=
  match old with
  | [] => new ++ flat_map (fun c => c :: new) s
  | _ :: _ => replace_from old new s 0
  end.

(** [s.find(sub)]: lowest index of an occurrence, or -1. *)
Fixpoint find_from (s sub : pystr) (i : Z) : Z :=
  if startswith s sub then i
  else match s with
       | [] => (-1)%Z
       | _ :: r => find_from r sub (i + 1)
       end.

Definition find (s sub : pystr) : Z := find_from s sub 0.

(** [s.rfind(sub)]: highest index of an occurrence, or -1. *)
Fixpoint rfind_from (s sub : pystr) (i : Z) : Z :=
  match s with
  | [] => if startswith [] sub then i else (-1)%Z
  | _ :: r =>
      let later := rfind_from r sub (i + 1) in
      if (later =? -1)%Z
      then (if startswith s sub then i else (-1)%Z)
      else later
  end.

Definition rfind (s sub : pystr) : Z := rfind_from s sub 0.

(** A slice bound as Python clamps it. *)
Definition clamp (len i : Z) : Z :=
  if (i <? 0)%Z then Z.max (i + len) 0 else Z.min i len.

(** [s[start:stop]]. *)
Definition slice (s : pystr) (start stop : Z) : pystr :=
  let len := Z.of_nat (List.length s) in
  let a := clamp len start in
  let b := clamp len stop in
  firstn (Z.to_nat (b - a)) (skipn (Z.to_nat a) s).

(** [s.isdigit()]: at least one character and all of them digits. *)
Definition isdigit (s : pystr) : bool :=
  match s with
  | [] => false
  | _ :: _ => forallb isdigit_char s
  end.

(** [sub in s]. *)
Definition contains (s sub : pystr) : bool := negb (find s sub =? -1)%Z.

End str.

(** ** Python values and [json.loads] *)

Set Warnings "-register-all".


(** Decoded text: a sequence of code points. *)
Definition ustr := list N.

Definition u (s : pystr) : ustr := map str.code s.

(** The values [json.loads] builds: [None], [bool], numbers, [str], [list]
    and [dict].  A dict lists its items in insertion order, each key once. *)
Inductive value : Type :=
| VNone
| VBool (b : bool)
| VNum (token : pystr)
| VStr (s : ustr)
| VList (items : list value)
| VDict (items : list (ustr * value)).

Definition ustr_eqb (a b : ustr) : bool :=
  if list_eq_dec N.eq_dec a b then true else false.

(** [d[k] = v]: an existing key keeps its place and takes the new value. *)
Fixpoint dict_set (d : list (ustr * value)) (k : ustr) (v : value)
  : list (ustr * value) :=
  match d with
  | [] => [(k, v)]
  | (k', v') :: d' =>
      if ustr_eqb k' k then (k', v) :: d' else (k', v') :: dict_set d' k v
  end.

(** [dict(pairs)], and [{**d, **pairs}] when started from [d]. *)
Definition dict_update (d pairs : list (ustr * value)) : list (ustr * value) :=
  fold_left (fun acc kv => dict_set acc (fst kv) (snd kv)) pairs d.

Fixpoint dict_get (d : list (ustr * value)) (k : ustr) : option value :=
  match d with
  | [] => None
  | (k', v) :: d' => if ustr_eqb k' k then Some v else dict_get d' k
  end.

Module json.

(** The decoder's whitespace: space, TAB, LF, CR. *)
Definition ws (c : ascii) : bool :=
  let n := str.code c in ((n =? 32) || (n =? 9) || (n =? 10) || (n =? 13))%N.

Fixpoint skip_ws (s : pystr) : pystr :=
  match s with
  | [] => []
  | c :: r => if ws c then skip_ws r else s
  end.

Definition digit (c : ascii) : bool :=
  let n := str.code c in ((48 <=? n) && (n <=? 57))%N.

Definition hexval (c : ascii) : option N :=
  let n := str.code c in
  if ((48 <=? n) && (n <=? 57))%N then Some (n - 48)%N
  else if ((65 <=? n) && (n <=? 70))%N then Some (n - 55)%N
  else if ((97 <=? n) && (n <=? 102))%N then Some (n - 87)%N
  else None.

(** The four hexadecimal digits of a [\uXXXX] escape. *)
Definition hex4 (a b c d : ascii) : option N :=
  match hexval a, hexval b, hexval c, hexval d with
  | Some x, Some y, Some z, Some w => Some (((x * 16 + y) * 16 + z) * 16 + w)%N
  | _, _, _, _ => None
  end.

(** The one-character escapes. *)
Definition backslash (e : ascii) : option N :=
  if Ascii.eqb e dquote then Some 34%N
  else if Ascii.eqb e "\" then Some 92%N
  else if Ascii.eqb e "/" then Some 47%N
  else if Ascii.eqb e "b" then Some 8%N
  else if Ascii.eqb e "f" then Some 12%N
  else if Ascii.eqb e "n" then Some 10%N
  else if Ascii.eqb e "r" then Some 13%N
  else if Ascii.eqb e "t" then Some 9%N
  else None.

Definition high_surrogate (n : N) : bool := ((55296 <=? n) && (n <=? 56319))%N.
Definition low_surrogate (n : N) : bool := ((56320 <=? n) && (n <=? 57343))%N.
Definition join_surrogates (hi lo : N) : N :=
  (65536 + ((hi - 55296) * 1024 + (lo - 56320)))%N.

(** [scanstring], strict mode: [s] is the text after the opening quote and
    [acc] the code points read so far, last first.  The result is the
    decoded string and the text after the closing quote. *)
Fixpoint scanstring (s : pystr) (acc : ustr) : option (ustr * pystr) :=
  match s with
  | [] => None
  | c :: r =>
      if Ascii.eqb c dquote then Some (rev acc, r)
      else if Ascii.eqb c "\" then
        match r with
        | [] => None
        | e :: r1 =>
            if Ascii.eqb e "u" then
              match r1 with
              | h1 :: h2 :: h3 :: h4 :: r2 =>
                  match hex4 h1 h2 h3 h4 with
                  | None => None
                  | Some hi =>
                      if high_surrogate hi then
                        match r2 with
                        | b2 :: u2 :: l1 :: l2 :: l3 :: l4 :: r3 =>
                            if Ascii.eqb b2 "\" && Ascii.eqb u2 "u" then
                              match hex4 l1 l2 l3 l4 with
                              | None => None
                              | Some lo =>
                                  if low_surrogate lo
                                  then scanstring r3 (join_surrogates hi lo :: acc)
                                  else scanstring r2 (hi :: acc)
                              end
                            else scanstring r2 (hi :: acc)
                        | _ => scanstring r2 (hi :: acc)
                        end
                      else scanstring r2 (hi :: acc)
                  end
              | _ => None
              end
            else
              match backslash e with
              | Some x => scanstring r1 (x :: acc)
              | None => None
              end
        end
      else if (str.code c <? 32)%N then None
      else scanstring r (str.code c :: acc)
  end.

(** The longest prefix of digits and what follows it. *)
Fixpoint digits (s : pystr) : pystr * pystr :=
  match s with
  | c :: r => if digit c then let (d, t) := digits r in (c :: d, t) else ([], s)
  | [] => ([], [])
  end.

(** Integer part of the number pattern: [0|[1-9][0-9]*]. *)
Definition int_part (s : pystr) : option (pystr * pystr) :=
  match s with
  | c :: r =>
      if Ascii.eqb c "0" then Some ([c], r)
      else if digit c then let (d, t) := digits r in Some (c :: d, t)
      else None
  | [] => None
  end.

(** Optional fraction: [(\.[0-9]+)?]. *)
Definition frac_part (s : pystr) : pystr * pystr :=
  match s with
  | c :: r =>
      if Ascii.eqb c "." then
        match digits r with
        | ([], _) => ([], s)
        | (d, t) => (c :: d, t)
        end
      else ([], s)
  | [] => ([], [])
  end.

(** Optional exponent: [([eE][-+]?[0-9]+)?]. *)
Definition exp_part (s : pystr) : pystr * pystr :=
  match s with
  | c :: r =>
      if Ascii.eqb c "e" || Ascii.eqb c "E" then
        match r with
        | sg :: r' =>
            if Ascii.eqb sg "-" || Ascii.eqb sg "+" then
              match digits r' with
              | ([], _) => ([], s)
              | (d, t) => (c :: sg :: d, t)
              end
            else
              match digits r with
              | ([], _) => ([], s)
              | (d, t) => (c :: d, t)
              end
        | [] => ([], s)
        end
      else ([], s)
  | [] => ([], [])
  end.

(** The number pattern matched at the start of [s]. *)
Definition match_number (s : pystr) : option (pystr * pystr) :=
  let (sign, s1) :=
    match s with
    | c :: r => if Ascii.eqb c "-" then ([c], r) else ([], s)
    | [] => ([], s)
    end in
  match int_part s1 with
  | None => None
  | Some (i, s2) =>
      let (f, s3) := frac_part s2 in
      let (e, s4) := exp_part s3 in
      Some (sign ++ i ++ f ++ e, s4)
  end.

(** [literal w s]: the text after [w] when [s] starts with [w]. *)
Definition literal (w s : pystr) : option pystr :=
  if str.startswith s w then Some (skipn (List.length w) s) else None.

(** What the interpreter allows the decoder.  [error_room] is the number
    of levels of recursion it takes to build a [JSONDecodeError] (the
    call of the class, its [__init__] and the calls made there: 3 in
    CPython 3.11); a call of [json.loads] that has not that much room
    cannot raise its own exceptions and is not considered.  [spare_room]
    is the number of levels left beyond it when [json.loads] calls the
    scanner: the recursion limit less the depth of that call and less
    [error_room].  [int_max_str_digits] is
    [sys.get_int_max_str_digits()], 0 for no limit. *)
Record Limits : Type := mkLimits {
  spare_room : nat;
  error_room : nat;
  int_max_str_digits : nat
}.

(** The number of containers the scanner may nest: each takes a level. *)
Definition recursion_room (lim : Limits) : nat :=
  error_room lim + spare_room lim.

(** What the decoder raises. *)
Inductive failure : Type :=
| Malformed                      (* JSONDecodeError *)
| TooDeep                        (* RecursionError *)
| TooManyDigits (digits : nat).  (* the ValueError of [int] *)

(** [raise_errmsg] where [room] levels are left: the [JSONDecodeError]
    is built there, and the [RecursionError] of building it is raised
    in its place when the room is short.  (Where the scanner finds no
    value at all it raises [StopIteration], built without a call, and
    the [JSONDecodeError] is raised by [raw_decode], above the scanner.) *)
Definition errmsg (error_room room : nat) : failure :=
  if (room <? error_room)%nat then TooDeep else Malformed.

(** The number of digits of a token without fraction and exponent, which
    [int] converts; [None] for a token that [float] converts. *)
Definition int_digits (tok : pystr) : option nat :=
  if forallb (fun c => digit c || Ascii.eqb c "-") tok
  then Some (List.length (filter digit tok))
  else None.

(** [int] refuses more than [max] digits, when a limit is set and the
    number has more than 640 digits. *)
Definition int_refused (max : nat) (tok : pystr) : option nat :=
  match int_digits tok with
  | Some n => if (0 <? max)%nat && (640 <? n)%nat && (max <? n)%nat
              then Some n else None
  | None => None
  end.

Section Containers.

(** The scanner for one value, used for the items of a container, and
    what [raise_errmsg] gives inside the container. *)
Variable scan_once : pystr -> failure + (value * pystr).
Variable err : failure.

(** The loop of [JSONArray]: [s] starts at an item; [n] bounds the
    number of items read. *)
Fixpoint array_items (n : nat) (s : pystr) (acc : list value)
  : failure + (value * pystr) :=
  match n with
  | O => inl Malformed
  | S n' =>
      match scan_once s with
      | inl f => inl f
      | inr (v, r) =>
          match skip_ws r with
          | [] => inl err
          | c :: r' =>
              if Ascii.eqb c "]" then inr (VList (rev (v :: acc)), r')
              else if Ascii.eqb c ","
                   then array_items n' (skip_ws r') (v :: acc)
                   else inl err
          end
      end
  end.

(** The loop of [JSONObject]: [s] is the text after the opening quote
    of a key; [pairs] are the items read so far, last first. *)
Fixpoint object_items (n : nat) (s : pystr) (pairs : list (ustr * value))
  : failure + (value * pystr) :=
  match n with
  | O => inl err
  | S n' =>
      match scanstring s [] with
      | None => inl err
      | Some (key, r) =>
          match skip_ws r with
          | [] => inl err
          | c :: r1 =>
              if Ascii.eqb c ":" then
                match scan_once (skip_ws r1) with
                | inl f => inl f
                | inr (v, r2) =>
                    match skip_ws r2 with
                    | [] => inl err
                    | c2 :: r3 =>
                        if Ascii.eqb c2 "}"
                        then inr (VDict (dict_update [] (rev ((key, v) :: pairs))), r3)
                        else if Ascii.eqb c2 "," then
                          match skip_ws r3 with
                          | [] => inl err
                          | q :: r4 =>
                              if Ascii.eqb q dquote
                              then object_items n' r4 ((key, v) :: pairs)
                              else inl err
                          end
                        else inl err
                    end
                end
              else inl err
          end
      end
  end.

End Containers.

(** A value that is no string and no container: a literal or a number.
    A number is converted as soon as it is matched. *)
Definition scan_scalar (max_digits : nat) (s : pystr)
  : failure + (value * pystr) :=
  match literal (py "null") s with
  | Some t => inr (VNone, t)
  | None =>
  match literal (py "true") s with
  | Some t => inr (VBool true, t)
  | None =>
  match literal (py "false") s with
  | Some t => inr (VBool false, t)
  | None =>
  match match_number s with
  | Some (tok, t) =>
      match int_refused max_digits tok with
      | Some n => inl (TooManyDigits n)
      | None => inr (VNum tok, t)
      end
  | None =>
  match literal (py "NaN") s with
  | Some t => inr (VNum (py "NaN"), t)
  | None =>
  match literal (py "Infinity") s with
  | Some t => inr (VNum (py "Infinity"), t)
  | None =>
  match literal (py "-Infinity") s with
  | Some t => inr (VNum (py "-Infinity"), t)
  | None => inl Malformed
  end end end end end end end.

(** [scan_once]: one value at the start of [s] and the text after it.
    Entering a container takes one unit of [room]; with none left the
    scanner raises [RecursionError] at the opening bracket.  An empty
    text, and a text that starts no value, is a [StopIteration]. *)
Fixpoint scan_once (max_digits error_room room : nat) (s : pystr)
    {struct room} : failure + (value * pystr) :=
  match s with
  | [] => inl Malformed
  | c :: r =>
      if Ascii.eqb c dquote then
        match scanstring r [] with
        | Some (x, t) => inr (VStr x, t)
        | None => inl (errmsg error_room room)
        end
      else if Ascii.eqb c "{" then
        match room with
        | O => inl TooDeep
        | S room' =>
            match skip_ws r with
            | [] => inl (errmsg error_room room')
            | c1 :: r1 =>
                if Ascii.eqb c1 "}" then inr (VDict [], r1)
                else if Ascii.eqb c1 dquote
                     then object_items (scan_once max_digits error_room room')
                            (errmsg error_room room') (List.length r1) r1 []
                     else inl (errmsg error_room room')
            end
        end
      else if Ascii.eqb c "[" then
        match room with
        | O => inl TooDeep
        | S room' =>
            match skip_ws r with
            | [] => inl Malformed
            | c1 :: r1 =>
                if Ascii.eqb c1 "]" then inr (VList [], r1)
                else array_items (scan_once max_digits error_room room')
                       (errmsg error_room room') (List.length r) (skip_ws r) []
            end
        end
      else scan_scalar max_digits s
  end.

(** [json.loads(s)]: one value, surrounded by whitespace only; text after
    the value is the [JSONDecodeError] of [decode]. *)
Definition loads (lim : Limits) (s : pystr) : failure + value :=
  let s0 := skip_ws s in
  match scan_once (int_max_str_digits lim) (error_room lim)
          (recursion_room lim) s0 with
  | inr (v, t) => match skip_ws t with [] => inr v | _ :: _ => inl Malformed end
  | inl f => inl f
  end.

End json.

(** ** Exceptions, events and the monad of the request handler *)

Inductive exn : Type :=
| ValueError (msg : string)
| JSONDecodeError
| IndexError
| RecursionError
| BackendError      (* raised by the chat-completion client *)
| RequestException. (* raised by [requests.post] *)

(** [class Message(BaseModel)] *)
Record Message : Type := mkMessage { role : pystr; content : pystr }.

(** [class ChatRequest(BaseModel)] *)
Record ChatRequest : Type := mkChatRequest {
  session_id : pystr;
  messages : list Message;
  lead_id : option pystr
}.

(** The body returned by [/chat]: [{"reply": ..., "lead_id": ...}]. *)
Record ChatResponse : Type := mkChatResponse {
  reply : pystr;
  response_lead_id : option pystr
}.

(** What the code of the handler does not decide.  [None] from a
    completion and [false] from [post] stand for a raised exception;
    [interpreter] holds the limits in force where the decoder is called. *)
Record World : Type := mkWorld {
  reply_completion : list Message -> option pystr;
  extraction_completion : list Message -> option pystr;
  uuid4 : pystr;
  utcnow_isoformat : pystr;
  post : pystr -> value -> bool;
  interpreter : json.Limits
}.

Inductive event : Type :=
| EPrintTotal (n : nat)
| EPrintLast (text : pystr)
| EReplyCall (transcript : list Message)
| EExtractionCall (transcript : list Message)
| EUuid (minted : pystr)
| EPost (action : pystr) (payload : value).

(** A computation ends in an exception or a result, and leaves a trace. *)
Definition M (A : Type) : Type := ((exn + A) * list event)%type.

Definition ret {A} (a : A) : M A := (inr a, []).
Definition raise {A} (e : exn) : M A := (inl e, []).
Definition emit (ev : event) : M unit := (inr tt, [ev]).

Definition bind {A B} (m : M A) (k : A -> M B) : M B :=
  match m with
  | (inl e, t) => (inl e, t)
  | (inr a, t) => let (r, t') := k a in (r, t ++ t')
  end.

(** [try: m  except Exception: h] *)
Definition try_except {A} (m : M A) (h : exn -> M A) : M A :=
  match m with
  | (inl e, t) => let (r, t') := h e in (r, t ++ t')
  | (inr a, t) => (inr a, t)
  end.

Definition lift {A} (r : exn + A) : M A := (r, []).

Notation "x <- m ;; k" := (bind m (fun x => k))
  (at level 61, m at next level, right associativity).
Notation "m ;;; k" := (bind m (fun _ => k))
  (at level 61, right associativity).

(** ** JSON utils *)

(** The text handed to the decoder: the assignments to [cleaned]
    (main.py, lines 48-51). *)
Definition cleaned_text (text : pystr) : pystr :=
  let cleaned := str.strip text in
  if str.startswith cleaned (py "```")
  then str.strip (str.replace (str.replace cleaned (py "```json") []) (py "```") [])
  else cleaned.

(** [str(n)] *)
Definition decimal (n : nat) : string := NilEmpty.string_of_uint (Nat.to_uint n).

(** The exception a failure of the decoder is. *)
Definition raised (lim : json.Limits) (f : json.failure) : exn :=
  match f with
  | json.Malformed => JSONDecodeError
  | json.TooDeep => RecursionError
  | json.TooManyDigits n =>
      ValueError
        ("Exceeds the limit (" ++ decimal (json.int_max_str_digits lim)
         ++ " digits) for integer string conversion: value has "
         ++ decimal n
         ++ " digits; use sys.set_int_max_str_digits() to increase the limit")
  end.

(** main.py, lines 44-60.  Only a [JSONDecodeError] of the first
    [json.loads] is caught; the second [json.loads] is outside the [try],
    so whatever it raises leaves the function. *)
Definition extract_json_from_text (lim : json.Limits) (text : pystr)
  : exn + value :=
  match text with
  | [] => inl (ValueError "Empty AI response")
  | _ :: _ =>
      let cleaned := cleaned_text text in
      match json.loads lim cleaned with
      | inr v => inr v
      | inl json.Malformed =>
          let start := str.find cleaned (py "{") in
          let end_ := str.rfind cleaned (py "}") in
          if negb (start =? -1)%Z && negb (end_ =? -1)%Z then
            match json.loads lim (str.slice cleaned start (end_ + 1)) with
            | inr v => inr v
            | inl f => inl (raised lim f)
            end
          else inl (ValueError "Could not extract valid JSON")
      | inl f => inl (raised lim f)
      end
  end.

(** ** AI chat *)

(** main.py, lines 65-99: one chat completion on the system prompt and
    the transcript; its exception is not caught. *)
Definition generate_ai_reply (w : World) (msgs : list Message) : M pystr :=
  emit (EReplyCall msgs) ;;;
  match reply_completion w msgs with
  | Some text => ret text
  | None => raise BackendError
  end.

(** ** AI extraction *)

Definition key (s : string) : ustr := u (py s).
Definition vstr (s : string) : value := VStr (u (py s)).

(** The record returned by the [except] branch (main.py, lines 152-162). *)
Definition fallback_record : value :=
  VDict [ (key "intent", vstr "sales");
          (key "service_interest", vstr "Website redesign");
          (key "budget_range", vstr "unknown");
          (key "timeline", vstr "unknown");
          (key "urgency_level", vstr "medium");
          (key "lead_score", VNum (py "50"));
          (key "lead_temperature", vstr "warm");
          (key "ai_summary", vstr "Lead captured but details incomplete.");
          (key "suggested_action", vstr "Review manually") ].

(** main.py, lines 103-162: the completion call is before the [try];
    the [try] covers [extract_json_from_text] only. *)
Definition extract_lead_data (w : World) (msgs : list Message) : M value :=
  emit (EExtractionCall msgs) ;;;
  raw <- match extraction_completion w msgs with
         | Some out => ret out
         | None => raise BackendError
         end ;;
  try_except (lift (extract_json_from_text (interpreter w) raw))
             (fun _ => ret fallback_record).

(** ** Route *)

(** [l[-1]] *)
Definition getitem_last {A} (l : list A) : M A :=
  match rev l with
  | [] => raise IndexError
  | x :: _ => ret x
  end.

(** Step 3, "Ensure extracted is always a dict" (main.py, lines 300-305). *)
Definition ensure_dict (extracted : value) : value :=
  let extracted :=
    match extracted with
    | VList (first :: _) => first
    | VList [] => VDict []
    | _ => extracted
    end in
  match extracted with
  | VDict _ => extracted
  | _ => VDict []
  end.

(** Step 4, on the stripped content of the last message (main.py,
    lines 308-311). *)
Definition is_phone (latest_user_message : pystr) : bool :=
  str.isdigit latest_user_message && (7 <=? List.length latest_user_message)%nat.

Definition is_email (latest_user_message : pystr) : bool :=
  str.contains latest_user_message (py "@")
  && str.contains latest_user_message (py ".").

(** Truth value of a [str | None]. *)
Definition truthy (o : option pystr) : bool :=
  match o with
  | Some (_ :: _) => true
  | _ => false
  end.

(** Step 5, lifecycle control (main.py, lines 314-324): the identifier
    and the action to use. *)
Definition lifecycle_control (w : World) (prior : option pystr)
    (phone email : bool) : M (option pystr * option pystr) :=
  if negb (truthy prior) then
    if phone || email then
      emit (EUuid (uuid4 w)) ;;;
      ret (Some (uuid4 w), Some (py "saveLead"))
    else ret (prior, None)
  else ret (prior, Some (py "updateLead")).

Definition message_dict (m : Message) : value :=
  VDict [ (key "role", VStr (u (role m))); (key "content", VStr (u (content m))) ].

Definition lead_id_value (o : option pystr) : value :=
  match o with
  | Some s => VStr (u s)
  | None => VNone
  end.

Definition dict_items (v : value) : list (ustr * value) :=
  match v with
  | VDict d => d
  | _ => []
  end.

(** The dict display of step 6 (main.py, lines 330-336); later keys
    replace earlier ones, so the items of [extracted] win over the first
    three. *)
Definition payload_of (w : World) (id : option pystr) (extracted : value)
    (updated_messages : list Message) : value :=
  let d := [ (key "created_at", VStr (u (utcnow_isoformat w)));
             (key "lead_id", lead_id_value id);
             (key "source", vstr "website-chatbot") ] in
  let d := dict_update d (dict_items extracted) in
  VDict (dict_set d (key "conversation_log")
                  (VList (map message_dict updated_messages))).

(** Step 6 (main.py, lines 329-345): one call to the webhook, its
    exception discarded. *)
Definition send_to_sheets (w : World) (action : option pystr)
    (id : option pystr) (extracted : value) (updated : list Message) : M unit :=
  if truthy action then
    let a := match action with Some a => a | None => [] end in
    let payload := payload_of w id extracted updated in
    try_except
      (emit (EPost a payload) ;;;
       if post w a payload then ret tt else raise RequestException)
      (fun _ => ret tt)
  else ret tt.

(** [POST /chat] (main.py, lines 282-351). *)
Definition chat (w : World) (request : ChatRequest) : M ChatResponse :=
  emit (EPrintTotal (List.length (messages request))) ;;;
  last <- getitem_last (messages request) ;;
  emit (EPrintLast (content last)) ;;;
  ai_reply <- generate_ai_reply w (messages request) ;;
  let updated_messages :=
    messages request ++ [mkMessage (py "assistant") ai_reply] in
  extracted <- extract_lead_data w updated_messages ;;
  let extracted := ensure_dict extracted in
  last <- getitem_last (messages request) ;;
  let latest_user_message := str.strip (content last) in
  decision <- lifecycle_control w (lead_id request)
                (is_phone latest_user_message) (is_email latest_user_message) ;;
  let (id, action) := decision in
  send_to_sheets w action id extracted updated_messages ;;;
  ret (mkChatResponse ai_reply id).

(** ** Observations on traces and sample inputs *)

Definition is_post (ev : event) : bool :=
  match ev with
  | EPost _ _ => true
  | _ => false
  end.

(** Only the prints and the call to the reply backend. *)
Definition before_extraction (ev : event) : bool :=
  match ev with
  | EPrintTotal _ | EPrintLast _ | EReplyCall _ => true
  | _ => false
  end.

(** The same world with another webhook. *)
Definition with_post (w : World) (gateway : pystr -> value -> bool) : World :=
  mkWorld (reply_completion w) (extraction_completion w) (uuid4 w)
          (utcnow_isoformat w) gateway (interpreter w).

Definition user_says (s : string) : Message := mkMessage (py "user") (py s).

(** The limits of CPython 3.11 left at its defaults: at most 4300
    digits, and room for 900 nested containers (the recursion limit of
    1000 less the frames below the call), the last three of them without
    room for a [JSONDecodeError]. *)
Definition default_limits : json.Limits := json.mkLimits 897 3 4300.

(** A world whose reply backend answers [Hello], whose extraction backend
    returns [out] (or raises), and whose webhook is up or down. *)
Definition sample_world (out : option pystr) (gateway_up : bool) : World :=
  mkWorld (fun _ => Some (py "Hello")) (fun _ => out)
          (py "6f1c2a9e-0b7d-4c55-9a31-2d8e4f60b7aa")
          (py "2026-01-15T10:30:00.000000")
          (fun _ _ => gateway_up)
          default_limits.

(** A world whose reply backend raises. *)
Definition silent_world : World :=
  mkWorld (fun _ => None) (fun _ => None) (py "6f1c2a9e") (py "2026")
          (fun _ _ => true) default_limits.

Definition sample_request (s : string) (prior : option pystr) : ChatRequest :=
  mkChatRequest (py "session-1") [user_says s] prior.

Definition newline : ascii := ascii_of_nat 10.

(** [fenced body]: [body] inside a fenced block tagged [json]. *)
Definition fenced (body : pystr) : pystr :=
  py "```json" ++ [newline] ++ body ++ [newline] ++ py "```".

(** [tail_of r s]: [r] is what is left of [s] after some prefix. *)
Definition tail_of (r s : pystr) : Prop := exists p, s = p ++ r.

(** [consumed s r]: [r] is left of [s] after at least one character. *)
Definition consumed (s r : pystr) : Prop :=
  exists c t, s = c :: t /\ tail_of r t.

(** [closed_at s r]: [r] is left of [s] after a prefix ending in [}]. *)
Definition closed_at (s r : pystr) : Prop := exists p, s = p ++ "}" :: r.

(** ** Further observations *)

Definition is_backend_call (ev : event) : bool :=
  match ev with
  | EReplyCall _ | EExtractionCall _ => true
  | _ => false
  end.

(** The actions of the webhook calls of a trace, in order. *)
Fixpoint post_actions (trace : list event) : list pystr :=
  match trace with
  | [] => []
  | EPost a _ :: t => a :: post_actions t
  | _ :: t => post_actions t
  end.

(** The same world with another extraction backend. *)
Definition with_extraction (w : World)
    (backend : list Message -> option pystr) : World :=
  mkWorld (reply_completion w) backend (uuid4 w) (utcnow_isoformat w) (post w)
          (interpreter w).

(** The record [chat] goes on with when the extraction backend outputs
    [raw]: the result of [extract_lead_data] passed through step 3. *)
Definition extracted_record (lim : json.Limits) (raw : pystr) : value :=
  ensure_dict (match extract_json_from_text lim raw with
               | inr v => v
               | inl _ => fallback_record
               end).

(** The three items [chat] writes before the extracted ones. *)
Definition payload_head (w : World) (id : option pystr) : list (ustr * value) :=
  [ (key "created_at", VStr (u (utcnow_isoformat w)));
    (key "lead_id", lead_id_value id);
    (key "source", vstr "website-chatbot") ].

(** A dict lists every key once. *)
Definition keys_once (v : value) : Prop :=
  match v with
  | VDict d => NoDup (map fst d)
  | _ => True
  end.

(** [keys_once] for a value and for the elements of a list. *)
Definition well_keyed (v : value) : Prop :=
  keys_once v
  /\ match v with
     | VList l => Forall keys_once l
     | _ => True
     end.

(** ** Python numbers

    A number token decodes to an [int] when it has neither fraction nor
    exponent, and to a [float] otherwise.  A float is kept as the decimal
    it was written as; what Python does with it is read off the decimal
    through the rounding to the nearest double (ties to even), which is
    monotone. *)

Inductive pynum : Type :=
| PyInt (z : Z)
| PyFloat (negative : bool) (mantissa : Z) (exp10 : Z) (* mantissa * 10^exp10 *)
| PyNaN
| PyInf (negative : bool).

Definition digits_value (ds : pystr) : Z :=
  fold_left (fun a c => a * 10 + (Z.of_N (str.code c) - 48))%Z ds 0%Z.

Definition pystr_eqb (a b : pystr) : bool :=
  if list_eq_dec ascii_dec a b then true else false.

(** The exponent part [e], [E] with its sign and digits, as a number. *)
Definition exponent_value (e : pystr) : Z :=
  match e with
  | [] => 0%Z
  | _ :: rest =>
      match rest with
      | sg :: ds =>
          if Ascii.eqb sg "-" then (- digits_value ds)%Z
          else if Ascii.eqb sg "+" then digits_value ds
          else digits_value rest
      | [] => 0%Z
      end
  end.

Definition number_of_token (tok : pystr) : option pynum :=
  if pystr_eqb tok (py "NaN") then Some PyNaN
  else if pystr_eqb tok (py "Infinity") then Some (PyInf false)
  else if pystr_eqb tok (py "-Infinity") then Some (PyInf true)
  else
    let (neg, s1) :=
      match tok with
      | c :: r => if Ascii.eqb c "-" then (true, r) else (false, tok)
      | [] => (false, tok)
      end in
    match json.int_part s1 with
    | None => None
    | Some (i, s2) =>
        let (f, s3) := json.frac_part s2 in
        let (e, _) := json.exp_part s3 in
        match f, e with
        | [], [] =>
            Some (PyInt (if neg then - digits_value i else digits_value i))
        | _, _ =>
            let fd := tl f in
            Some (PyFloat neg (digits_value (i ++ fd))
                    (exponent_value e - Z.of_nat (List.length fd)))
        end
    end.

(** [x >= 60].  The double nearest to a decimal is at least 60 exactly
    when the decimal is at least 60 - 2^-48, half way down to the double
    just below 60. *)
Definition num_ge_60 (x : pynum) : bool :=
  match x with
  | PyInt z => (60 <=? z)%Z
  | PyFloat neg m e =>
      if neg then false
      else if (0 <=? e)%Z then (60 <=? m * 10 ^ e)%Z
      else ((60 * 2 ^ 48 - 1) * 10 ^ (- e) <=? m * 2 ^ 48)%Z
  | PyNaN => false
  | PyInf neg => negb neg
  end.

(** Truth value of a number: it is not zero.  A decimal is rounded to
    zero exactly when its magnitude is at most 2^-1075. *)
Definition num_truth (x : pynum) : bool :=
  match x with
  | PyInt z => negb (z =? 0)%Z
  | PyFloat _ m e =>
      if (m =? 0)%Z then false
      else if (0 <=? e)%Z then true
      else (10 ^ (- e) <? m * 2 ^ 1075)%Z
  | PyNaN => true
  | PyInf _ => true
  end.

(** Truth value of a decoded value. *)
Definition value_truth (v : value) : bool :=
  match v with
  | VNone => false
  | VBool b => b
  | VNum tok =>
      match number_of_token tok with
      | Some x => num_truth x
      | None => true
      end
  | VStr s => negb (ustr_eqb s [])
  | VList l => match l with [] => false | _ :: _ => true end
  | VDict d => match d with [] => false | _ :: _ => true end
  end.

(** [v == "s"] and [v != "s"] for a string literal. *)
Definition eq_str (v : value) (s : string) : bool :=
  match v with
  | VStr x => ustr_eqb x (key s)
  | _ => false
  end.

(** ** app.py: the first version of the service

    [extract_json_from_text] is the same text as in main.py and
    [extract_lead_data] differs by its prompt only, so both are the
    definitions above; for app.py the completions of a [World] stand for
    the answers to its own prompts.  What app.py adds is [auto_save_lead]
    and a handler without lifecycle. *)

(** The monad of main.py, under a name that [app] does not redefine. *)
Definition M0 (A : Type) : Type := M A.

Module app.

(** The exceptions of the code above, and the two that subscripting and
    comparing the extracted value can raise. *)
Inductive error : Type :=
| Raised (e : exn)
| KeyError (k : ustr)
| TypeError.

Definition M (A : Type) : Type := ((error + A) * list event)%type.

Definition unit {A} (a : A) : M A := (inr a, []).
Definition throw {A} (e : error) : M A := (inl e, []).
Definition tell (ev : event) : M Datatypes.unit := (inr tt, [ev]).

Definition seq {A B} (m : M A) (k : A -> M B) : M B :=
  match m with
  | (inl e, t) => (inl e, t)
  | (inr a, t) => let (r, t') := k a in (r, t ++ t')
  end.

(** [try: m  except Exception: h] *)
Definition attempt {A} (m : M A) (h : error -> M A) : M A :=
  match m with
  | (inl e, t) => let (r, t') := h e in (r, t ++ t')
  | (inr a, t) => (inr a, t)
  end.

(** A computation of the code above, run here. *)
Definition up {A} (m : M0 A) : M A :=
  match m with
  | (inl e, t) => (inl (Raised e), t)
  | (inr a, t) => (inr a, t)
  end.

Definition pure {A} (r : error + A) : M A := (r, []).

(** [v[k]] for a string literal [k]: only a dict can be subscripted by a
    string. *)
Definition getitem (v : value) (k : string) : error + value :=
  match v with
  | VDict d =>
      match dict_get d (key k) with
      | Some x => inr x
      | None => inl (KeyError (key k))
      end
  | _ => inl TypeError
  end.

(** [v >= 60]: numbers compare, [bool] as 0 or 1, anything else raises.
    (No decoded number has a malformed token.) *)
Definition ge_60 (v : value) : error + bool :=
  match v with
  | VNum tok =>
      match number_of_token tok with
      | Some x => inr (num_ge_60 x)
      | None => inl TypeError
      end
  | VBool _ => inr false
  | _ => inl TypeError
  end.

(** The condition of the [if] of [auto_save_lead] (app.py, lines
    134-142), with the short-circuits of [and] and [or]. *)
Definition qualifies (extracted : value) : error + bool :=
  match getitem extracted "intent" with
  | inl e => inl e
  | inr intent =>
      if negb (eq_str intent "sales") then inr false
      else
        match getitem extracted "service_interest" with
        | inl e => inl e
        | inr service =>
            if negb (value_truth service) then inr false
            else
              match getitem extracted "lead_score" with
              | inl e => inl e
              | inr score =>
                  match ge_60 score with
                  | inl e => inl e
                  | inr false => inr false
                  | inr true =>
                      match getitem extracted "budget_range" with
                      | inl e => inl e
                      | inr budget =>
                          if negb (eq_str budget "unknown") then inr true
                          else
                            match getitem extracted "timeline" with
                            | inl e => inl e
                            | inr timeline =>
                                inr (negb (eq_str timeline "unknown"))
                            end
                      end
                  end
              end
        end
  end.

(** app.py, lines 130-159. *)
Definition auto_save_lead (w : World) (msgs : list Message) : M Datatypes.unit :=
  seq (up (extract_lead_data w msgs)) (fun extracted =>
  seq (pure (qualifies extracted)) (fun yes =>
  if yes : bool then
    seq (tell (EUuid (uuid4 w))) (fun _ =>
    let payload := payload_of w (Some (uuid4 w)) extracted msgs in
    attempt
      (seq (tell (EPost (py "saveLead") payload)) (fun _ =>
       if post w (py "saveLead") payload
       then unit tt else throw (Raised RequestException)))
      (fun _ => unit tt))
  else unit tt)).

(** [class ChatRequest(BaseModel)] of app.py. *)
Record ChatRequest : Type := mkChatRequest {
  session_id : pystr;
  messages : list Message
}.

(** [POST /chat] of app.py (lines 164-175); the body returned is
    [{"reply": ai_reply}]. *)
Definition chat (w : World) (request : ChatRequest) : M pystr :=
  seq (up (generate_ai_reply w (messages request))) (fun ai_reply =>
  let updated_messages :=
    messages request ++ [mkMessage (py "assistant") ai_reply] in
  seq (auto_save_lead w updated_messages) (fun _ =>
  unit ai_reply)).

End app.

(** * Properties *)

(** ** Text primitives *)

Lemma code_eqb (a b : ascii) : Ascii.eqb a b = true <-> a = b.
Proof. apply Ascii.eqb_eq. Qed.

Lemma find_from_absent (s : pystr) (c : ascii) (i : Z) :
  ~ In c s -> str.find_from s [c] i = (-1)%Z.
Proof.
  revert i. induction s as [|a r IH]; intros i Hn; simpl; [reflexivity|].
  rewrite andb_true_r.
  destruct (Ascii.eqb a c) eqn:E.
  - apply code_eqb in E. exfalso. apply Hn. now left.
  - apply IH. intros H. apply Hn. now right.
Qed.

Lemma find_from_first (p r : pystr) (c : ascii) (i : Z) :
  ~ In c p ->
  str.find_from (p ++ c :: r) [c] i = (i + Z.of_nat (List.length p))%Z.
Proof.
  revert i. induction p as [|a p IH]; intros i Hn.
  - cbn [app str.find_from str.startswith List.length].
    rewrite Ascii.eqb_refl. simpl. lia.
  - cbn [app str.find_from str.startswith].
    rewrite andb_true_r.
    destruct (Ascii.eqb a c) eqn:E.
    + apply code_eqb in E. exfalso. apply Hn. now left.
    + rewrite IH by (intros H; apply Hn; now right).
      cbn [List.length]. lia.
Qed.

Lemma find_from_present (s : pystr) (c : ascii) (i : Z) :
  (0 <= i)%Z -> In c s -> str.find_from s [c] i <> (-1)%Z.
Proof.
  intros Hi Hin.
  destruct (in_split _ _ Hin) as [p [r ->]].
  clear Hin. revert i Hi.
  induction p as [|a p IH]; intros i Hi.
  - cbn [app str.find_from str.startswith]. rewrite Ascii.eqb_refl. simpl. lia.
  - cbn [app str.find_from str.startswith]. rewrite andb_true_r.
    destruct (Ascii.eqb a c); [lia|]. apply IH. lia.
Qed.

Lemma contains_char (s : pystr) (c : ascii) :
  str.contains s [c] = true <-> In c s.
Proof.
  unfold str.contains, str.find. rewrite negb_true_iff, Z.eqb_neq. split.
  - intros H. destruct (in_dec ascii_dec c s) as [Hin|Hn]; [assumption|].
    exfalso. apply H. now apply find_from_absent.
  - intros Hin. apply find_from_present; [lia | assumption].
Qed.

Lemma rfind_from_absent (s : pystr) (c : ascii) (i : Z) :
  ~ In c s -> str.rfind_from s [c] i = (-1)%Z.
Proof.
  revert i. induction s as [|a r IH]; intros i Hn; [reflexivity|].
  cbn [str.rfind_from str.startswith].
  rewrite IH by (intros H; apply Hn; now right).
  rewrite andb_true_r. simpl.
  destruct (Ascii.eqb a c) eqn:E; [|reflexivity].
  apply code_eqb in E. exfalso. apply Hn. now left.
Qed.

Lemma rfind_from_last (p r : pystr) (c : ascii) (i : Z) :
  (0 <= i)%Z -> ~ In c r ->
  str.rfind_from (p ++ c :: r) [c] i = (i + Z.of_nat (List.length p))%Z.
Proof.
  revert i. induction p as [|a p IH]; intros i Hi Hn.
  - cbn [app str.rfind_from str.startswith List.length].
    rewrite rfind_from_absent by assumption.
    rewrite Ascii.eqb_refl. simpl. lia.
  - cbn [app str.rfind_from].
    rewrite IH by (assumption || lia).
    cbn [List.length].
    destruct (_ =? -1)%Z eqn:E; [apply Z.eqb_eq in E; lia | lia].
Qed.

Lemma rfind_from_present (s : pystr) (c : ascii) (i : Z) :
  (0 <= i)%Z -> In c s -> str.rfind_from s [c] i <> (-1)%Z.
Proof.
  intros Hi Hin.
  assert (H : exists p r, s = p ++ c :: r /\ ~ In c r).
  { clear i Hi. induction s as [|a s IH]; [contradiction|].
    destruct (in_dec ascii_dec c s) as [Hs|Hs].
    - destruct (IH Hs) as [p [r [-> Hr]]]. now exists (a :: p), r.
    - destruct Hin as [->|Hin]; [|contradiction]. now exists [], s. }
  destruct H as [p [r [-> Hr]]].
  rewrite rfind_from_last by assumption. lia.
Qed.

Lemma clamp_inside (len i : Z) :
  (0 <= i <= len)%Z -> str.clamp len i = i.
Proof.
  intros H. unfold str.clamp.
  destruct (i <? 0)%Z eqn:E; [apply Z.ltb_lt in E; lia | lia].
Qed.

Lemma slice_middle (p m r : pystr) :
  str.slice (p ++ m ++ r) (Z.of_nat (List.length p))
            (Z.of_nat (List.length p + List.length m)) = m.
Proof.
  unfold str.slice.
  rewrite !clamp_inside by (rewrite !length_app; lia).
  replace (Z.to_nat (Z.of_nat (List.length p))) with (List.length p + 0) by lia.
  rewrite skipn_app, skipn_all2 by lia.
  replace (List.length p + 0 - List.length p) with 0 by lia.
  cbn [skipn app].
  replace (Z.to_nat _) with (List.length m + 0) by lia.
  rewrite firstn_app_2. cbn [firstn]. apply app_nil_r.
Qed.

Lemma lstrip_suffix (s : pystr) : exists p, s = p ++ str.lstrip s.
Proof.
  induction s as [|a s [p IH]]; [now exists []|].
  simpl. destruct (str.isspace a).
  - exists (a :: p). simpl. now f_equal.
  - now exists [].
Qed.

Lemma lstrip_app_stop (p r : pystr) (c : ascii) :
  str.isspace c = false ->
  str.lstrip (p ++ c :: r) = str.lstrip p ++ c :: r.
Proof.
  intros Hc. induction p as [|a p IH]; simpl.
  - now rewrite Hc.
  - destruct (str.isspace a); [assumption | reflexivity].
Qed.

Lemma rstrip_app_stop (p r : pystr) (c : ascii) :
  str.isspace c = false ->
  str.rstrip (p ++ c :: r) = p ++ c :: str.rstrip r.
Proof.
  intros Hc. unfold str.rstrip.
  rewrite rev_app_distr. cbn [rev]. rewrite <- app_assoc. cbn [app].
  rewrite lstrip_app_stop by assumption.
  rewrite rev_app_distr. cbn [rev]. rewrite rev_involutive, <- app_assoc.
  reflexivity.
Qed.

Lemma in_lstrip (c : ascii) (s : pystr) : In c (str.lstrip s) -> In c s.
Proof.
  destruct (lstrip_suffix s) as [p H]. intros Hin.
  rewrite H. apply in_or_app. now right.
Qed.

Lemma in_rstrip (c : ascii) (s : pystr) : In c (str.rstrip s) -> In c s.
Proof.
  unfold str.rstrip. intros H.
  apply in_rev. apply in_lstrip. now apply in_rev in H.
Qed.

Lemma in_strip (c : ascii) (s : pystr) : In c (str.strip s) -> In c s.
Proof. intros H. apply in_lstrip. now apply in_rstrip. Qed.

Lemma in_replace_from (c : ascii) (old s : pystr) (k : nat) :
  In c (str.replace_from old [] s k) -> In c s.
Proof.
  revert k. induction s as [|a s IH]; intros k; simpl; [auto|].
  destruct k as [|k].
  - destruct (str.startswith (a :: s) old).
    + simpl. intros H. right. eapply IH, H.
    + simpl. intros [->|H]; [now left | right; eapply IH, H].
  - intros H. right. eapply IH, H.
Qed.

Lemma in_replace_empty (c : ascii) (s old : pystr) :
  In c (str.replace s old []) -> In c s.
Proof.
  unfold str.replace. destruct old as [|o old].
  - simpl. induction s as [|a s IH]; simpl; [auto|].
    intros [->|H]; [now left | right; auto].
  - apply in_replace_from.
Qed.

(** ** Contact detection *)

Lemma is_phone_spec (t : pystr) :
  is_phone t = true <->
  Forall (fun c => str.isdigit_char c = true) t /\ 7 <= List.length t.
Proof.
  unfold is_phone. rewrite andb_true_iff, Nat.leb_le, Forall_forall.
  unfold str.isdigit. destruct t as [|c t].
  - simpl. split; [intros [H _]; discriminate | intros [_ H]; lia].
  - now rewrite forallb_forall.
Qed.

Lemma is_email_spec (t : pystr) :
  is_email t = true <-> In "@" t /\ In "." t.
Proof.
  unfold is_email.
  change (py "@") with ["@"]. change (py ".") with ["."].
  now rewrite andb_true_iff, !contains_char.
Qed.

(** C4. Contact detection is a function of the latest user message
    alone: on the trimmed text, [is_phone] holds exactly when every
    character is a digit character and there are at least 7 of them, and
    [is_email] holds exactly when the text has an [@] and a [.]; so
    [5551234567] is a phone, [555-123-4567] is not, [a@b.com] is an
    email and [hello] is neither. *)
Theorem contact_detection_rules (message : pystr) :
  let trimmed := str.strip message in
  (is_phone trimmed = true <->
     Forall (fun c => str.isdigit_char c = true) trimmed
     /\ 7 <= List.length trimmed)
  /\ (is_email trimmed = true <-> In "@" trimmed /\ In "." trimmed)
  /\ (is_phone (str.strip (py "5551234567")) = true
      /\ is_email (str.strip (py "5551234567")) = false)
  /\ is_phone (str.strip (py "555-123-4567")) = false
  /\ (is_phone (str.strip (py "a@b.com")) = false
      /\ is_email (str.strip (py "a@b.com")) = true)
  /\ (is_phone (str.strip (py "hello")) = false
      /\ is_email (str.strip (py "hello")) = false).
Proof.
  intros trimmed.
  split; [apply is_phone_spec|].
  split; [apply is_email_spec|].
  vm_compute. repeat split; reflexivity.
Qed.

(** ** The request handler *)

Ltac run_handler :=
  unfold chat, generate_ai_reply, extract_lead_data, lifecycle_control,
    send_to_sheets, getitem_last, try_except, lift, bind, ret, raise, emit.

Lemma truthy_nonempty (X : pystr) : X <> [] -> truthy (Some X) = true.
Proof. destruct X; [contradiction | reflexivity]. Qed.

(** C10. [/chat] needs a non-empty [messages] list: the handler reads the
    last message unguarded, so a request with no message fails with
    [IndexError] after the first print, before any reply generation,
    extraction or persistence. *)
Theorem empty_messages_rejected (w : World) (request : ChatRequest) :
  messages request = [] ->
  chat w request = (inl IndexError, [EPrintTotal 0]).
Proof.
  intros H. run_handler. rewrite H. reflexivity.
Qed.

Lemma empty_messages_rejected_witness :
  messages (mkChatRequest (py "session-1") [] None) = []
  /\ chat (sample_world (Some (py "{}")) true)
          (mkChatRequest (py "session-1") [] None)
     = (inl IndexError, [EPrintTotal 0]).
Proof.
  split; [reflexivity|].
  apply (empty_messages_rejected (sample_world (Some (py "{}")) true)
           (mkChatRequest (py "session-1") [] None)).
  reflexivity.
Defined.

(** C8. When the reply backend fails the whole request fails: the
    handler ends in an exception (the backend's own when there is a
    message to answer), no response is built, and the trace holds nothing
    but the prints and the reply call, so no extraction, no identifier and
    no webhook call. *)
Theorem reply_failure_propagates (w : World) (request : ChatRequest) :
  reply_completion w (messages request) = None ->
  exists e trace,
    chat w request = (inl e, trace)
    /\ forallb before_extraction trace = true
    /\ (messages request <> [] ->
        e = BackendError /\ In (EReplyCall (messages request)) trace).
Proof.
  intros H. run_handler. rewrite H.
  destruct (rev (messages request)) as [|last rest] eqn:E.
  - exists IndexError, [EPrintTotal (List.length (messages request))].
    split; [reflexivity|]. split; [reflexivity|].
    intros Hne. exfalso. apply Hne.
    apply (f_equal (@rev Message)) in E. now rewrite rev_involutive in E.
  - eexists _, _. split; [reflexivity|]. split; [reflexivity|].
    intros _. split; [reflexivity|]. simpl. auto.
Qed.

Lemma reply_failure_propagates_witness :
  reply_completion silent_world (messages (sample_request "hi" None)) = None
  /\ exists e trace,
      chat silent_world (sample_request "hi" None) = (inl e, trace)
      /\ forallb before_extraction trace = true
      /\ (messages (sample_request "hi" None) <> [] ->
          e = BackendError
          /\ In (EReplyCall (messages (sample_request "hi" None))) trace).
Proof.
  split; [reflexivity|].
  apply (reply_failure_propagates silent_world (sample_request "hi" None)).
  reflexivity.
Defined.

Lemma getitem_last_ret {A} (l : list A) (x : A) :
  getitem_last l = ret x -> exists rest, rev l = x :: rest.
Proof.
  unfold getitem_last, ret, raise.
  destruct (rev l) as [|y rest]; intros H; inversion H. now exists rest.
Qed.

Lemma send_to_sheets_trace (w : World) (a : pystr) (id : option pystr)
    (extracted : value) (updated : list Message) :
  a <> [] ->
  send_to_sheets w (Some a) id extracted updated
  = (inr tt, [EPost a (payload_of w id extracted updated)]).
Proof.
  intros Ha. unfold send_to_sheets. rewrite truthy_nonempty by assumption.
  unfold try_except, bind, emit, ret, raise.
  destruct (post w a (payload_of w id extracted updated)); reflexivity.
Qed.

(** The record the handler goes on with, from the backend's output. *)
Lemma extract_lead_data_run (w : World) (msgs : list Message) (raw : pystr) :
  extraction_completion w msgs = Some raw ->
  extract_lead_data w msgs
  = (inr (match extract_json_from_text (interpreter w) raw with
          | inr v => v
          | inl _ => fallback_record
          end), [EExtractionCall msgs]).
Proof.
  intros H. unfold extract_lead_data, try_except, lift, bind, emit, ret.
  rewrite H. destruct (extract_json_from_text (interpreter w) raw); reflexivity.
Qed.

(** A request with a last message, answered by both backends, runs to the
    end; identifier, action and trace are those of the lifecycle step. *)
Lemma chat_run (w : World) (request : ChatRequest) (last : Message)
    (r raw : pystr) :
  getitem_last (messages request) = ret last ->
  reply_completion w (messages request) = Some r ->
  extraction_completion w (messages request ++ [mkMessage (py "assistant") r])
    = Some raw ->
  let updated := messages request ++ [mkMessage (py "assistant") r] in
  let latest := str.strip (content last) in
  let extracted :=
    ensure_dict (match extract_json_from_text (interpreter w) raw with
                 | inr v => v
                 | inl _ => fallback_record
                 end) in
  let head := [EPrintTotal (List.length (messages request));
               EPrintLast (content last);
               EReplyCall (messages request);
               EExtractionCall updated] in
  chat w request =
    if truthy (lead_id request) then
      (inr (mkChatResponse r (lead_id request)),
       head ++ [EPost (py "updateLead")
                  (payload_of w (lead_id request) extracted updated)])
    else if is_phone latest || is_email latest then
      (inr (mkChatResponse r (Some (uuid4 w))),
       head ++ [EUuid (uuid4 w);
                EPost (py "saveLead")
                  (payload_of w (Some (uuid4 w)) extracted updated)])
    else (inr (mkChatResponse r (lead_id request)), head).
Proof.
  intros Hlast Hr Hx updated latest extracted head.
  destruct (getitem_last_ret _ _ Hlast) as [rest Hrev].
  pose proof (extract_lead_data_run w updated raw Hx) as Hrun.
  unfold chat, generate_ai_reply, getitem_last, lifecycle_control.
  unfold bind at 1 2 3. cbn [emit]. rewrite Hrev. cbn [ret].
  unfold bind at 1 2 3. cbn [emit]. rewrite Hr. cbn [ret].
  unfold bind at 1. fold updated. rewrite Hrun.
  unfold bind at 1. cbn [ret]. fold extracted. fold latest.
  destruct (truthy (lead_id request)) eqn:Ht; cbn [negb].
  - unfold bind, ret, emit.
    rewrite send_to_sheets_trace by discriminate. reflexivity.
  - destruct (is_phone latest || is_email latest).
    + unfold bind, ret, emit.
      rewrite send_to_sheets_trace by discriminate. reflexivity.
    + reflexivity.
Qed.

(** A response is produced only on the run described by [chat_run]. *)
Lemma chat_returns_inv (w : World) (request : ChatRequest)
    (resp : ChatResponse) (trace : list event) :
  chat w request = (inr resp, trace) ->
  exists last r raw,
    getitem_last (messages request) = ret last
    /\ reply_completion w (messages request) = Some r
    /\ extraction_completion w
         (messages request ++ [mkMessage (py "assistant") r]) = Some raw.
Proof.
  unfold chat, generate_ai_reply, getitem_last.
  destruct (rev (messages request)) as [|last rest] eqn:Hrev.
  - unfold bind, emit, raise. discriminate.
  - destruct (reply_completion w (messages request)) as [r|] eqn:Hr.
    + destruct (extraction_completion w
                  (messages request ++ [mkMessage (py "assistant") r]))
        as [raw|] eqn:Hx.
      * intros _. now exists last, r, raw.
      * unfold bind at 1 2 3. cbn [emit ret].
        unfold bind at 1 2 3. cbn [emit ret].
        unfold bind at 1. unfold extract_lead_data. rewrite Hx.
        unfold bind, emit, ret, raise. discriminate.
    + unfold bind, emit, ret, raise. discriminate.
Qed.

(** C2. Once an identifier exists it is kept: for every request whose
    [lead_id] is a (non-empty) identifier [X], the lifecycle step answers
    [updateLead] with [X] whatever the contact flags are, and every
    response of the handler carries [X], mints nothing, and its one webhook
    call is an [updateLead]. *)
Theorem lifecycle_monotonicity (w : World) (request : ChatRequest) (X : pystr) :
  lead_id request = Some X -> X <> [] ->
  (forall phone email,
      lifecycle_control w (lead_id request) phone email
      = ret (Some X, Some (py "updateLead")))
  /\ (forall resp trace,
         chat w request = (inr resp, trace) ->
         response_lead_id resp = Some X
         /\ (forall id, ~ In (EUuid id) trace)
         /\ (forall a p, In (EPost a p) trace -> a = py "updateLead")
         /\ exists p, In (EPost (py "updateLead") p) trace).
Proof.
  intros HX Hne. split.
  - intros phone email. unfold lifecycle_control.
    rewrite HX, truthy_nonempty by assumption. reflexivity.
  - intros resp trace Hc.
    destruct (chat_returns_inv _ _ _ _ Hc) as (last & r & raw & Hl & Hr & Hx).
    rewrite (chat_run w request last r raw Hl Hr Hx) in Hc.
    rewrite HX, truthy_nonempty in Hc by assumption.
    inversion Hc; subst resp trace; clear Hc.
    split; [reflexivity|]. split; [|split].
    + intros id Hin. simpl in Hin.
      repeat (destruct Hin as [Hin|Hin]; [discriminate|]). exact Hin.
    + intros a p Hin. simpl in Hin.
      repeat (destruct Hin as [Hin|Hin]; [try discriminate|]);
        [now inversion Hin | contradiction].
    + eexists. simpl. do 4 right. left. reflexivity.
Qed.

Lemma lifecycle_monotonicity_witness :
  let w := sample_world (Some (pyq "{'intent':'sales'}")) false in
  let request := sample_request "any news?" (Some (py "6f1c2a9e")) in
  lead_id request = Some (py "6f1c2a9e") /\ py "6f1c2a9e" <> []
  /\ (forall phone email,
         lifecycle_control w (lead_id request) phone email
         = ret (Some (py "6f1c2a9e"), Some (py "updateLead")))
  /\ (forall resp trace,
         chat w request = (inr resp, trace) ->
         response_lead_id resp = Some (py "6f1c2a9e")
         /\ (forall id, ~ In (EUuid id) trace)
         /\ (forall a p, In (EPost a p) trace -> a = py "updateLead")
         /\ exists p, In (EPost (py "updateLead") p) trace).
Proof.
  intros w request.
  split; [reflexivity|]. split; [discriminate|].
  apply (lifecycle_monotonicity w request (py "6f1c2a9e"));
    [reflexivity | discriminate].
Defined.

(** C3. Without an identifier nothing happens until contact details
    arrive: when [lead_id] is null and the latest message is neither a
    phone number nor an email, the lifecycle step answers no action and no
    identifier, and a response carries a null [lead_id] with no webhook
    call in the trace, whatever was extracted; when either flag holds, the
    identifier drawn from the UUID generator is used with [saveLead]. *)
Theorem lifecycle_no_identity (w : World) (request : ChatRequest)
    (last : Message) :
  lead_id request = None ->
  getitem_last (messages request) = ret last ->
  let latest := str.strip (content last) in
  let phone := is_phone latest in
  let email := is_email latest in
  (phone = false /\ email = false ->
     lifecycle_control w (lead_id request) phone email = ret (None, None)
     /\ forall resp trace,
         chat w request = (inr resp, trace) ->
         response_lead_id resp = None
         /\ forallb (fun ev => negb (is_post ev)) trace = true)
  /\ (phone = true \/ email = true ->
        lifecycle_control w (lead_id request) phone email
        = (inr (Some (uuid4 w), Some (py "saveLead")), [EUuid (uuid4 w)])
        /\ forall resp trace,
            chat w request = (inr resp, trace) ->
            response_lead_id resp = Some (uuid4 w)
            /\ In (EUuid (uuid4 w)) trace
            /\ exists p, In (EPost (py "saveLead") p) trace).
Proof.
  intros Hid Hl latest phone email. split.
  - intros [Hp He]. split.
    + unfold lifecycle_control. rewrite Hid, Hp, He. reflexivity.
    + intros resp trace Hc.
      destruct (chat_returns_inv _ _ _ _ Hc) as (last' & r & raw & Hl' & Hr & Hx).
      assert (last' = last) by (rewrite Hl in Hl'; now inversion Hl').
      subst last'.
      rewrite (chat_run w request last r raw Hl Hr Hx) in Hc.
      fold latest in Hc. fold phone in Hc. fold email in Hc.
      rewrite Hid, Hp, He in Hc. cbn [truthy orb] in Hc.
      inversion Hc; subst resp trace; clear Hc.
      split; reflexivity.
  - intros Hc0.
    assert (Hor : phone || email = true)
      by (destruct Hc0 as [-> | ->]; [reflexivity | apply orb_true_r]).
    split.
    + unfold lifecycle_control. rewrite Hid, Hor. reflexivity.
    + intros resp trace Hc.
      destruct (chat_returns_inv _ _ _ _ Hc) as (last' & r & raw & Hl' & Hr & Hx).
      assert (last' = last) by (rewrite Hl in Hl'; now inversion Hl').
      subst last'.
      rewrite (chat_run w request last r raw Hl Hr Hx) in Hc.
      fold latest in Hc. fold phone in Hc. fold email in Hc.
      rewrite Hid, Hor in Hc. cbn [truthy] in Hc.
      inversion Hc; subst resp trace; clear Hc.
      split; [reflexivity|]. split.
      * simpl. do 4 right. left. reflexivity.
      * eexists. simpl. do 5 right. left. reflexivity.
Qed.

Lemma lifecycle_no_identity_witness :
  let w := sample_world (Some (pyq "{'intent':'sales'}")) true in
  let request := sample_request "5551234567" None in
  let last := user_says "5551234567" in
  lead_id request = None
  /\ getitem_last (messages request) = ret last
  /\ lifecycle_control w (lead_id request)
       (is_phone (str.strip (content last)))
       (is_email (str.strip (content last)))
     = (inr (Some (uuid4 w), Some (py "saveLead")), [EUuid (uuid4 w)]).
Proof.
  intros w request last.
  split; [reflexivity|]. split; [reflexivity|].
  apply (proj2 (lifecycle_no_identity w request last eq_refl eq_refl)).
  left. reflexivity.
Defined.

(** C9. An empty-string [lead_id] is handled as no identifier at all:
    the lifecycle step takes the same action and leaves the same trace as
    for a null one, mints an identifier with [saveLead] as soon as a
    contact flag holds, and the handler then answers with the minted
    identifier although the caller presented one. *)
Theorem empty_lead_id_is_no_identity (w : World) (request : ChatRequest)
    (last : Message) :
  lead_id request = Some [] ->
  getitem_last (messages request) = ret last ->
  let phone := is_phone (str.strip (content last)) in
  let email := is_email (str.strip (content last)) in
  (forall p e,
      exists id id' action evs,
        lifecycle_control w (lead_id request) p e = (inr (id, action), evs)
        /\ lifecycle_control w None p e = (inr (id', action), evs)
        /\ (p || e = true ->
            id = Some (uuid4 w) /\ id' = Some (uuid4 w)
            /\ action = Some (py "saveLead") /\ evs = [EUuid (uuid4 w)])
        /\ (p || e = false -> action = None /\ evs = []))
  /\ (phone || email = true ->
      forall resp trace,
        chat w request = (inr resp, trace) ->
        response_lead_id resp = Some (uuid4 w)
        /\ exists p, In (EPost (py "saveLead") p) trace).
Proof.
  intros Hid Hl phone email. split.
  - intros p e. unfold lifecycle_control. rewrite Hid. cbn [truthy negb].
    destruct (p || e) eqn:E.
    + eexists _, _, _, _. split; [reflexivity|]. split; [reflexivity|].
      split; [intros _; repeat split | discriminate].
    + eexists _, _, _, _. split; [reflexivity|]. split; [reflexivity|].
      split; [discriminate | intros _; split; reflexivity].
  - intros Hor resp trace Hc.
    destruct (chat_returns_inv _ _ _ _ Hc) as (last' & r & raw & Hl' & Hr & Hx).
    assert (last' = last) by (rewrite Hl in Hl'; now inversion Hl').
    subst last'.
    rewrite (chat_run w request last r raw Hl Hr Hx) in Hc.
    fold phone in Hc. fold email in Hc.
    rewrite Hid, Hor in Hc. cbn [truthy] in Hc.
    inversion Hc; subst resp trace; clear Hc.
    split; [reflexivity|].
    eexists. simpl. do 5 right. left. reflexivity.
Qed.

Lemma empty_lead_id_is_no_identity_witness :
  let w := sample_world (Some (pyq "{'email':'a@b.com'}")) true in
  let request := sample_request "a@b.com" (Some []) in
  let last := user_says "a@b.com" in
  lead_id request = Some []
  /\ getitem_last (messages request) = ret last
  /\ (is_phone (str.strip (content last))
      || is_email (str.strip (content last)) = true ->
      forall resp trace,
        chat w request = (inr resp, trace) ->
        response_lead_id resp = Some (uuid4 w)
        /\ exists p, In (EPost (py "saveLead") p) trace).
Proof.
  intros w request last.
  split; [reflexivity|]. split; [reflexivity|].
  apply (proj2 (empty_lead_id_is_no_identity w request last eq_refl eq_refl)).
Defined.

(** C7, as stated, fails: the reply backend answers, the extraction
    backend call raises outside the [try], and the request ends in that
    exception with no response. *)
Lemma reply_without_response :
  ~ (forall (w : World) (request : ChatRequest) (r : pystr),
        reply_completion w (messages request) = Some r ->
        exists id trace, chat w request = (inr (mkChatResponse r id), trace)).
Proof.
  intros H.
  destruct (H (sample_world None true) (sample_request "hi" None) (py "Hello")
              eq_refl) as (id & trace & Hc).
  vm_compute in Hc. discriminate.
Qed.

(** C7, amended. For every request with a last message in which the
    reply backend and the extraction backend both answer, the response
    holds the generated reply and the identifier of the lifecycle step
    (possibly null); the trace has at most one webhook call; and response
    and trace are the same whatever the webhook does. *)
Theorem persistence_outcome_invisible (w : World) (request : ChatRequest)
    (last : Message) (r raw : pystr) :
  getitem_last (messages request) = ret last ->
  reply_completion w (messages request) = Some r ->
  extraction_completion w (messages request ++ [mkMessage (py "assistant") r])
    = Some raw ->
  exists id action evs trace,
    lifecycle_control w (lead_id request)
      (is_phone (str.strip (content last)))
      (is_email (str.strip (content last))) = (inr (id, action), evs)
    /\ chat w request = (inr (mkChatResponse r id), trace)
    /\ List.length (filter is_post trace) <= 1
    /\ (action = None -> filter is_post trace = [])
    /\ forall gateway,
        chat (with_post w gateway) request = (inr (mkChatResponse r id), trace).
Proof.
  intros Hl Hr Hx.
  assert (Hg : forall gateway, chat (with_post w gateway) request = chat w request).
  { intros gateway.
    rewrite (chat_run (with_post w gateway) request last r raw Hl Hr Hx).
    rewrite (chat_run w request last r raw Hl Hr Hx). reflexivity. }
  rewrite (chat_run w request last r raw Hl Hr Hx) in *.
  unfold lifecycle_control.
  destruct (truthy (lead_id request)); cbn [negb].
  - eexists _, _, _, _. split; [reflexivity|]. split; [reflexivity|].
    split; [simpl; lia|]. split; [discriminate | exact Hg].
  - destruct (is_phone (str.strip (content last))
              || is_email (str.strip (content last))).
    + eexists _, _, _, _. split; [reflexivity|]. split; [reflexivity|].
      split; [simpl; lia|]. split; [discriminate | exact Hg].
    + eexists _, _, _, _. split; [reflexivity|]. split; [reflexivity|].
      split; [simpl; lia|]. split; [reflexivity | exact Hg].
Qed.

Lemma persistence_outcome_invisible_witness :
  let w := sample_world (Some (pyq "{'phone':'5551234567'}")) false in
  let request := sample_request "5551234567" None in
  let last := user_says "5551234567" in
  getitem_last (messages request) = ret last
  /\ reply_completion w (messages request) = Some (py "Hello")
  /\ extraction_completion w
       (messages request ++ [mkMessage (py "assistant") (py "Hello")])
     = Some (pyq "{'phone':'5551234567'}")
  /\ exists id action evs trace,
      lifecycle_control w (lead_id request)
        (is_phone (str.strip (content last)))
        (is_email (str.strip (content last))) = (inr (id, action), evs)
      /\ chat w request = (inr (mkChatResponse (py "Hello") id), trace)
      /\ List.length (filter is_post trace) <= 1
      /\ (action = None -> filter is_post trace = [])
      /\ forall gateway,
          chat (with_post w gateway) request
          = (inr (mkChatResponse (py "Hello") id), trace).
Proof.
  intros w request last.
  split; [reflexivity|]. split; [reflexivity|]. split; [reflexivity|].
  apply (persistence_outcome_invisible w request last (py "Hello")
           (pyq "{'phone':'5551234567'}")); reflexivity.
Defined.

(** ** Structured extraction *)

Lemma ensure_dict_is_dict (v : value) : exists d, ensure_dict v = VDict d.
Proof.
  destruct v as [| | | |l|d]; try (now exists []).
  - destruct l as [|x l]; [now exists []|].
    destruct x; try (now exists []). now eexists.
  - now exists d.
Qed.

(** C1, as stated, fails: when the backend outputs the empty JSON array
    the record the handler goes on with is the empty dict, which is not
    the fallback record and has no [intent]; the payload sent with it has
    none either. *)
Lemma empty_array_yields_empty_record :
  let w := sample_world (Some (py "[]")) true in
  let msgs := [user_says "5551234567"; mkMessage (py "assistant") (py "Hello")] in
  extract_lead_data w msgs = (inr (VList []), [EExtractionCall msgs])
  /\ ensure_dict (VList []) = VDict []
  /\ ensure_dict (VList []) <> fallback_record
  /\ dict_get (dict_items (ensure_dict (VList []))) (key "intent") = None
  /\ exists resp head p,
      chat w (sample_request "5551234567" None)
      = (inr resp, head ++ [EPost (py "saveLead") p])
      /\ dict_get (dict_items p) (key "intent") = None.
Proof.
  intros w msgs.
  split; [reflexivity|]. split; [reflexivity|]. split; [discriminate|].
  split; [reflexivity|].
  eexists _, [_; _; _; _; _], _. split; reflexivity.
Qed.

(** C1, amended. For any output of the extraction backend the
    extraction step returns without error and the record the handler
    goes on with is always a dict: the fallback record when the salvage
    parser fails; the decoded object itself when the output decodes to an
    object; the first element when it decodes to a list whose first
    element is an object; and the empty dict otherwise (empty list, list
    starting with a non-object, or any other non-object value). *)
Theorem extraction_normalized (w : World) (msgs : list Message) (raw : pystr) :
  extraction_completion w msgs = Some raw ->
  exists v,
    extract_lead_data w msgs = (inr v, [EExtractionCall msgs])
    /\ (exists d, ensure_dict v = VDict d)
    /\ match extract_json_from_text (interpreter w) raw with
       | inl _ => v = fallback_record /\ ensure_dict v = fallback_record
       | inr (VDict d) => ensure_dict v = VDict d
       | inr (VList (VDict d :: _)) => ensure_dict v = VDict d
       | inr _ => ensure_dict v = VDict []
       end.
Proof.
  intros H. rewrite (extract_lead_data_run w msgs raw H).
  eexists. split; [reflexivity|]. split; [apply ensure_dict_is_dict|].
  destruct (extract_json_from_text (interpreter w) raw) as [e|v]; [split; reflexivity|].
  destruct v as [| | | |l|d]; try reflexivity.
  destruct l as [|x l]; [reflexivity|].
  destruct x; reflexivity.
Qed.

Lemma extraction_normalized_witness :
  let w := sample_world (Some (pyq "[{'intent':'support'}, 7]")) true in
  let msgs := [user_says "hi"] in
  extraction_completion w msgs = Some (pyq "[{'intent':'support'}, 7]")
  /\ exists v,
      extract_lead_data w msgs = (inr v, [EExtractionCall msgs])
      /\ (exists d, ensure_dict v = VDict d)
      /\ match extract_json_from_text default_limits (pyq "[{'intent':'support'}, 7]") with
         | inl _ => v = fallback_record /\ ensure_dict v = fallback_record
         | inr (VDict d) => ensure_dict v = VDict d
         | inr (VList (VDict d :: _)) => ensure_dict v = VDict d
         | inr _ => ensure_dict v = VDict []
         end.
Proof.
  intros w msgs. split; [reflexivity|].
  apply (extraction_normalized w msgs (pyq "[{'intent':'support'}, 7]")).
  reflexivity.
Defined.

(** ** The decoder reads its input from left to right *)

Create HintDb tails.

Lemma tail_refl (s : pystr) : tail_of s s.
Proof. now exists []. Qed.

Lemma tail_cons (c : ascii) (r s : pystr) : tail_of r s -> tail_of r (c :: s).
Proof. intros [p ->]. now exists (c :: p). Qed.

Lemma tail_trans (a b c : pystr) : tail_of a b -> tail_of b c -> tail_of a c.
Proof. intros [p ->] [q ->]. exists (q ++ p). now rewrite app_assoc. Qed.

Lemma tail_length (r s : pystr) : tail_of r s -> List.length r <= List.length s.
Proof. intros [p ->]. rewrite length_app. lia. Qed.

Lemma tail_in (c : ascii) (r s : pystr) : tail_of r s -> In c r -> In c s.
Proof. intros [p ->] H. apply in_or_app. now right. Qed.

Lemma consumed_tail (s r : pystr) : consumed s r -> tail_of r s.
Proof. intros (c & t & -> & H). now apply tail_cons. Qed.

Lemma consumed_length (s r : pystr) :
  consumed s r -> List.length r < List.length s.
Proof. intros (c & t & -> & H). apply tail_length in H. simpl. lia. Qed.

Lemma consumed_cons (c : ascii) (r s : pystr) : tail_of r s -> consumed (c :: s) r.
Proof. intros H. now exists c, s. Qed.

Lemma tail_consumed (a b c : pystr) : tail_of a b -> consumed c b -> consumed c a.
Proof.
  intros H (x & t & -> & Ht). exists x, t. split; [reflexivity|].
  eapply tail_trans; eassumption.
Qed.

Lemma closed_tail (s r : pystr) : closed_at s r -> tail_of r s.
Proof.
  intros [p ->]. exists (p ++ ["}"]). now rewrite <- app_assoc.
Qed.

Lemma closed_after (a b r : pystr) : tail_of b a -> closed_at b r -> closed_at a r.
Proof.
  intros [p ->] [q ->]. exists (p ++ q). now rewrite <- app_assoc.
Qed.

Lemma closed_in (s r : pystr) : closed_at s r -> In "}" s.
Proof. intros [p ->]. apply in_or_app. right. now left. Qed.

#[local] Hint Resolve tail_refl tail_cons consumed_cons consumed_tail : tails.

Lemma skip_ws_tail (s : pystr) : tail_of (json.skip_ws s) s.
Proof.
  induction s as [|c s IH]; simpl; [apply tail_refl|].
  destruct (json.ws c); auto with tails.
Qed.

#[local] Hint Resolve skip_ws_tail : tails.

Lemma skip_ws_step (s r : pystr) (c : ascii) :
  json.skip_ws s = c :: r -> tail_of r s.
Proof.
  intros H. pose proof (skip_ws_tail s) as Ht. rewrite H in Ht.
  eapply tail_trans; [|exact Ht]. auto with tails.
Qed.

Ltac destruct_in H :=
  match type of H with
  | context [match ?x with _ => _ end] => destruct x eqn:?
  | context [if ?x then _ else _] => destruct x eqn:?
  end.

Lemma scanstring_consumed (n : nat) :
  forall (s : pystr) (acc : ustr) (x : ustr) (r : pystr),
    List.length s <= n ->
    json.scanstring s acc = Some (x, r) -> consumed s r.
Proof.
  induction n as [|n IH]; intros s acc x r Hlen H.
  - destruct s; [discriminate | simpl in Hlen; lia].
  - destruct s as [|c s]; [discriminate|].
    cbn [json.scanstring] in H. cbn [List.length] in Hlen.
    repeat (destruct_in H; try discriminate;
            cbn [List.length] in Hlen);
      try (inversion H; subst; auto with tails; fail);
      apply consumed_cons;
      match goal with
      | H : json.scanstring ?t _ = Some _ |- _ =>
          apply IH in H; [|simpl; lia]; apply consumed_tail in H;
          let rec go := first [exact H | apply tail_cons; go] in go
      end.
Qed.

Lemma digits_tail (s d t : pystr) : json.digits s = (d, t) -> tail_of t s.
Proof.
  revert d t. induction s as [|c s IH]; intros d t H; simpl in H.
  - inversion H. apply tail_refl.
  - destruct (json.digit c).
    + destruct (json.digits s) as [d' t'] eqn:E. inversion H; subst.
      apply tail_cons. eapply IH. reflexivity.
    + inversion H. apply tail_refl.
Qed.

Lemma int_part_consumed (s i t : pystr) :
  json.int_part s = Some (i, t) -> consumed s t.
Proof.
  unfold json.int_part. destruct s as [|c s]; [discriminate|].
  destruct (Ascii.eqb c "0").
  - intros H. inversion H. auto with tails.
  - destruct (json.digit c); [|discriminate].
    destruct (json.digits s) as [d t'] eqn:E. intros H. inversion H; subst.
    apply consumed_cons. eapply digits_tail, E.
Qed.

Lemma frac_part_tail (s f t : pystr) : json.frac_part s = (f, t) -> tail_of t s.
Proof.
  unfold json.frac_part. destruct s as [|c s].
  - intros H. inversion H. apply tail_refl.
  - destruct (Ascii.eqb c ".").
    + destruct (json.digits s) as [d t'] eqn:E. apply digits_tail in E.
      destruct d; intros H; inversion H; subst; auto with tails.
    + intros H. inversion H. apply tail_refl.
Qed.

Lemma exp_part_tail (s e t : pystr) : json.exp_part s = (e, t) -> tail_of t s.
Proof.
  unfold json.exp_part. destruct s as [|c s].
  - intros H. inversion H. apply tail_refl.
  - destruct (Ascii.eqb c "e" || Ascii.eqb c "E").
    + destruct s as [|sg s']; [intros H; inversion H; apply tail_refl|].
      destruct (Ascii.eqb sg "-" || Ascii.eqb sg "+").
      * destruct (json.digits s') as [d t'] eqn:E. apply digits_tail in E.
        destruct d; intros H; inversion H; subst; auto with tails.
      * destruct (json.digits (sg :: s')) as [d t'] eqn:E.
        apply digits_tail in E.
        destruct d; intros H; inversion H; subst; auto with tails.
    + intros H. inversion H. apply tail_refl.
Qed.

Lemma match_number_consumed (s tok t : pystr) :
  json.match_number s = Some (tok, t) -> consumed s t.
Proof.
  unfold json.match_number.
  set (sg := match s with
             | c :: r => if Ascii.eqb c "-" then ([c], r) else ([], s)
             | [] => ([], s)
             end).
  assert (Hs : tail_of (snd sg) s).
  { subst sg. destruct s as [|c r]; [apply tail_refl|].
    destruct (Ascii.eqb c "-"); simpl; auto with tails. }
  destruct sg as [sign s1]. simpl in Hs.
  destruct (json.int_part s1) as [[i s2]|] eqn:Ei; [|discriminate].
  destruct (json.frac_part s2) as [f s3] eqn:Ef.
  destruct (json.exp_part s3) as [e s4] eqn:Ee.
  intros H. inversion H; subst.
  apply int_part_consumed in Ei. apply frac_part_tail in Ef.
  apply exp_part_tail in Ee.
  destruct Ei as (c & t' & -> & Ht').
  assert (Ht : tail_of t t') by (eapply tail_trans; [|exact Ht'];
                                 eapply tail_trans; eassumption).
  destruct Hs as [p Hp]. destruct p as [|a p]; simpl in Hp; subst s.
  - now exists c, t'.
  - exists a, (p ++ c :: t'). split; [reflexivity|].
    eapply tail_trans; [exact Ht|]. exists (p ++ [c]). now rewrite <- app_assoc.
Qed.

Lemma startswith_app (s w : pystr) :
  str.startswith s w = true -> s = w ++ skipn (List.length w) s.
Proof.
  revert s. induction w as [|a w IH]; intros s H; [reflexivity|].
  destruct s as [|c s]; [discriminate|].
  simpl in H. apply andb_true_iff in H as [Hc Hw].
  apply code_eqb in Hc. subst c. simpl. f_equal. now apply IH.
Qed.

Lemma literal_consumed (w s t : pystr) :
  w <> [] -> json.literal w s = Some t -> consumed s t.
Proof.
  unfold json.literal. intros Hw H.
  destruct (str.startswith s w) eqn:E; [|discriminate].
  inversion H; subst. apply startswith_app in E.
  destruct w as [|a w]; [contradiction|].
  rewrite E at 1. simpl. exists a, (w ++ skipn (S (List.length w)) s).
  split; [reflexivity|]. now exists w.
Qed.

Section ContainerLoops.

Variable scan : pystr -> json.failure + (value * pystr).
Variable err : json.failure.
Hypothesis scan_consumed :
  forall s v r, scan s = inr (v, r) -> consumed s r.

Lemma array_items_consumed (n : nat) :
  forall s acc v r,
    json.array_items scan err n s acc = inr (v, r) ->
    consumed s r /\ exists l, v = VList l.
Proof.
  induction n as [|n IH]; intros s acc v r H; [discriminate|].
  cbn [json.array_items] in H.
  destruct (scan s) as [f|[v1 r1]] eqn:E1; [discriminate|].
  apply scan_consumed in E1.
  destruct (json.skip_ws r1) as [|c r2] eqn:E2; [discriminate|].
  apply skip_ws_step in E2.
  assert (Hr2 : consumed s r2)
    by (eapply tail_consumed; [exact E2 | exact E1]).
  destruct (Ascii.eqb c "]").
  - injection H as Hv Hr. subst. split; [assumption | now eexists].
  - destruct (Ascii.eqb c ","); [|discriminate].
    apply IH in H. destruct H as [Hc Hl]. split; [|assumption].
    eapply tail_consumed; [|exact Hr2].
    eapply tail_trans; [apply consumed_tail, Hc | apply skip_ws_tail].
Qed.

Lemma object_items_closed (n : nat) :
  forall s pairs v r,
    json.object_items scan err n s pairs = inr (v, r) ->
    closed_at s r /\ exists d, v = VDict d.
Proof.
  induction n as [|n IH]; intros s pairs v r H; [discriminate|].
  cbn [json.object_items] in H.
  destruct (json.scanstring s []) as [[k r0]|] eqn:E0; [|discriminate].
  apply (scanstring_consumed (List.length s)) in E0; [|lia].
  apply consumed_tail in E0.
  destruct (json.skip_ws r0) as [|c r1] eqn:E1; [discriminate|].
  apply skip_ws_step in E1.
  destruct (Ascii.eqb c ":"); [|discriminate].
  destruct (scan (json.skip_ws r1)) as [f|[v1 r2]] eqn:E2; [discriminate|].
  apply scan_consumed, consumed_tail in E2.
  destruct (json.skip_ws r2) as [|c2 r3] eqn:E3; [discriminate|].
  assert (Hr2 : tail_of r2 s).
  { eapply tail_trans; [exact E2|]. eapply tail_trans; [apply skip_ws_tail|].
    eapply tail_trans; [exact E1 | exact E0]. }
  assert (Hc2 : tail_of (c2 :: r3) s).
  { eapply tail_trans; [|exact Hr2]. rewrite <- E3. apply skip_ws_tail. }
  destruct (Ascii.eqb c2 "}") eqn:Ec.
  - injection H as Hv Hr. subst. apply code_eqb in Ec. subst c2.
    split; [|now eexists]. destruct Hc2 as [p ->]. now exists p.
  - destruct (Ascii.eqb c2 ","); [|discriminate].
    destruct (json.skip_ws r3) as [|q r4] eqn:E4; [discriminate|].
    destruct (Ascii.eqb q dquote); [|discriminate].
    apply IH in H. destruct H as [Hc Hd]. split; [|assumption].
    eapply closed_after; [|exact Hc].
    apply skip_ws_step in E4.
    eapply tail_trans; [exact E4|].
    eapply tail_trans; [|exact Hc2]. auto with tails.
Qed.

End ContainerLoops.

Lemma scan_scalar_consumed (max_digits : nat) (s : pystr) (v : value)
    (r : pystr) :
  json.scan_scalar max_digits s = inr (v, r) ->
  consumed s r /\ match v with VList _ | VDict _ => False | _ => True end.
Proof.
  unfold json.scan_scalar. intros H.
  repeat (destruct_in H;
          [ match goal with
            | E : json.literal _ _ = Some _ |- _ =>
                apply literal_consumed in E; [|discriminate];
                injection H as Hv Hr; subst; split; [exact E | exact I]
            | E : json.match_number _ = Some _ |- _ => idtac
            end | ]); try discriminate.
  destruct p as [tok t].
  match goal with
  | E : json.match_number _ = Some _ |- _ => apply match_number_consumed in E
  end.
  destruct (json.int_refused max_digits tok); [discriminate|].
  injection H as Hv Hr. subst. split; [assumption | exact I].
Qed.

Lemma scan_once_consumed (max_digits error_room room : nat) :
  forall s v r,
    json.scan_once max_digits error_room room s = inr (v, r) -> consumed s r.
Proof.
  induction room as [|room IH]; intros s v r H;
    destruct s as [|c s]; try discriminate;
    cbn [json.scan_once] in H;
    (destruct (Ascii.eqb c dquote);
     [ destruct (json.scanstring s []) as [[x t]|] eqn:E; [|discriminate];
       injection H as Hv Hr; subst;
       apply (scanstring_consumed (List.length s)) in E; [|lia];
       auto with tails | ]);
    (destruct (Ascii.eqb c "{"); [try discriminate|
     destruct (Ascii.eqb c "["); [try discriminate|
     now apply scan_scalar_consumed in H]]).
  - destruct (json.skip_ws s) as [|c1 r1] eqn:E; [discriminate|].
    apply skip_ws_step in E.
    destruct (Ascii.eqb c1 "}");
      [injection H as Hv Hr; subst; auto with tails|].
    destruct (Ascii.eqb c1 dquote); [|discriminate].
    apply (object_items_closed _ _ IH) in H. destruct H as [H _].
    apply consumed_cons. eapply tail_trans; [apply closed_tail, H | exact E].
  - destruct (json.skip_ws s) as [|c1 r1] eqn:E; [discriminate|].
    destruct (Ascii.eqb c1 "]").
    + injection H as Hv Hr; subst. apply skip_ws_step in E. auto with tails.
    + apply (array_items_consumed _ _ IH) in H. destruct H as [H _].
      apply consumed_cons.
      eapply tail_trans; [apply consumed_tail, H|].
      rewrite <- E. apply skip_ws_tail.
Qed.

(** A decoded object starts at an opening brace and ends at a closing one. *)
Lemma scan_once_dict (max_digits error_room room : nat) (s : pystr)
    (d : list (ustr * value)) (r : pystr) :
  json.scan_once max_digits error_room room s = inr (VDict d, r) ->
  exists t, s = "{" :: t /\ closed_at t r.
Proof.
  intros H. destruct s as [|c s]; [destruct room; discriminate|].
  assert (H' : json.scan_once max_digits error_room room (c :: s) = inr (VDict d, r))
    by exact H.
  destruct room as [|room]; cbn [json.scan_once] in H;
    (destruct (Ascii.eqb c dquote);
     [destruct (json.scanstring s []) as [[x t]|]; discriminate|]);
    (destruct (Ascii.eqb c "{") eqn:Eb; [try discriminate|
     destruct (Ascii.eqb c "["); [try discriminate|
     apply scan_scalar_consumed in H; destruct H as [_ []]]]).
  - apply code_eqb in Eb. subst c. exists s. split; [reflexivity|].
    destruct (json.skip_ws s) as [|c1 r1] eqn:E; [discriminate|].
    pose proof (skip_ws_tail s) as Ht. rewrite E in Ht.
    destruct (Ascii.eqb c1 "}") eqn:E1.
    + injection H as Hv Hr; subst. apply code_eqb in E1. subst c1.
      destruct Ht as [p ->]. now exists p.
    + destruct (Ascii.eqb c1 dquote); [|discriminate].
      apply (object_items_closed _ _ (scan_once_consumed max_digits error_room room)) in H.
      destruct H as [H _].
      eapply closed_after; [|exact H].
      eapply tail_trans; [|exact Ht]. auto with tails.
  - destruct (json.skip_ws s) as [|c1 r1]; [discriminate|].
    destruct (Ascii.eqb c1 "]"); [discriminate|].
    apply (array_items_consumed _ _ (scan_once_consumed max_digits error_room room)) in H.
    destruct H as [_ [l Hl]]. discriminate.
Qed.

Lemma loads_dict_braces (lim : json.Limits) (s : pystr)
    (d : list (ustr * value)) :
  json.loads lim s = inr (VDict d) -> In "{" s /\ In "}" s.
Proof.
  unfold json.loads. intros H.
  destruct (json.scan_once _ _ _ _) as [f|[v t]] eqn:E; [discriminate|].
  destruct (json.skip_ws t); [|discriminate].
  injection H as Hv. subst v.
  apply scan_once_dict in E. destruct E as (t' & Hs & Hc).
  pose proof (skip_ws_tail s) as Ht. rewrite Hs in Ht.
  split.
  - eapply tail_in; [exact Ht | now left].
  - eapply tail_in; [exact Ht | right; eapply closed_in, Hc].
Qed.

(** ** The bounds of the container loops are never reached

    The two container loops are bounded by the length of the text still
    to be read.  Any larger bound gives the same result, so a failure of
    [json.loads] is one the decoder raises and never a bound running
    out. *)

Section LoopBounds.

Variable scan : pystr -> json.failure + (value * pystr).
Variable err : json.failure.
Hypothesis scan_consumed :
  forall s v r, scan s = inr (v, r) -> consumed s r.
Hypothesis scan_nothing : scan [] = inl json.Malformed.

Lemma array_items_bound (n : nat) :
  forall n' s acc,
    List.length s <= n -> List.length s <= n' ->
    json.array_items scan err n s acc = json.array_items scan err n' s acc.
Proof.
  induction n as [|n IH]; intros n' s acc Hn Hn'.
  - destruct s; [|simpl in Hn; lia].
    destruct n'; [reflexivity|]. cbn [json.array_items].
    now rewrite scan_nothing.
  - destruct n' as [|n'].
    + destruct s; [|simpl in Hn'; lia].
      cbn [json.array_items]. now rewrite scan_nothing.
    + cbn [json.array_items].
      destruct (scan s) as [f|[v r]] eqn:E; [reflexivity|].
      apply scan_consumed, consumed_length in E.
      destruct (json.skip_ws r) as [|c r'] eqn:Er; [reflexivity|].
      apply skip_ws_step, tail_length in Er.
      destruct (Ascii.eqb c "]"); [reflexivity|].
      destruct (Ascii.eqb c ","); [|reflexivity].
      pose proof (tail_length _ _ (skip_ws_tail r')).
      apply IH; lia.
Qed.

Lemma object_items_bound (n : nat) :
  forall n' s pairs,
    List.length s <= n -> List.length s <= n' ->
    json.object_items scan err n s pairs = json.object_items scan err n' s pairs.
Proof.
  induction n as [|n IH]; intros n' s pairs Hn Hn'.
  - destruct s; [|simpl in Hn; lia]. destruct n'; reflexivity.
  - destruct n' as [|n'].
    + destruct s; [reflexivity | simpl in Hn'; lia].
    + cbn [json.object_items].
      destruct (json.scanstring s []) as [[k r]|] eqn:E; [|reflexivity].
      apply (scanstring_consumed (List.length s)) in E; [|lia].
      apply consumed_length in E.
      destruct (json.skip_ws r) as [|c r1] eqn:E1; [reflexivity|].
      apply skip_ws_step, tail_length in E1.
      destruct (Ascii.eqb c ":"); [|reflexivity].
      pose proof (tail_length _ _ (skip_ws_tail r1)) as Hw.
      destruct (scan (json.skip_ws r1)) as [f|[v r2]] eqn:E2; [reflexivity|].
      apply scan_consumed, consumed_length in E2.
      destruct (json.skip_ws r2) as [|c2 r3] eqn:E3; [reflexivity|].
      apply skip_ws_step, tail_length in E3.
      destruct (Ascii.eqb c2 "}"); [reflexivity|].
      destruct (Ascii.eqb c2 ","); [|reflexivity].
      destruct (json.skip_ws r3) as [|q r4] eqn:E4; [reflexivity|].
      apply skip_ws_step, tail_length in E4.
      destruct (Ascii.eqb q dquote); [|reflexivity].
      apply IH; lia.
Qed.

End LoopBounds.

(** The loops of [scan_once] with any larger bound. *)
Lemma scan_once_loop_bounds (max_digits error_room room : nat)
    (err : json.failure) (s : pystr) (n : nat) :
  List.length s <= n ->
  (forall pairs,
      json.object_items (json.scan_once max_digits error_room room) err (List.length s) s pairs
      = json.object_items (json.scan_once max_digits error_room room) err n s pairs)
  /\ (forall acc,
         json.array_items (json.scan_once max_digits error_room room) err (List.length s) s acc
         = json.array_items (json.scan_once max_digits error_room room) err n s acc).
Proof.
  intros Hn.
  assert (Hnil : json.scan_once max_digits error_room room [] = inl json.Malformed)
    by (destruct room; reflexivity).
  split; intros x.
  - apply object_items_bound; [apply scan_once_consumed | lia | exact Hn].
  - apply array_items_bound;
      [apply scan_once_consumed | exact Hnil | lia | exact Hn].
Qed.

(** ** The salvage parser *)

Lemma in_cleaned_text (c : ascii) (t : pystr) : In c (cleaned_text t) -> In c t.
Proof.
  unfold cleaned_text.
  destruct (str.startswith (str.strip t) (py "```")).
  - intros H. apply in_strip in H. apply in_replace_empty in H.
    apply in_replace_empty in H. now apply in_strip in H.
  - apply in_strip.
Qed.

Lemma find_char_absent (s : pystr) (c : ascii) :
  (str.find s [c] =? -1)%Z = true <-> ~ In c s.
Proof.
  rewrite Z.eqb_eq. unfold str.find. split.
  - intros H Hin. revert H. apply find_from_present; [lia | assumption].
  - apply find_from_absent.
Qed.

Lemma rfind_char_absent (s : pystr) (c : ascii) :
  (str.rfind s [c] =? -1)%Z = true <-> ~ In c s.
Proof.
  rewrite Z.eqb_eq. unfold str.rfind. split.
  - intros H Hin. revert H. apply rfind_from_present; [lia | assumption].
  - apply rfind_from_absent.
Qed.

(** Text made of a JSON document in braces between brace-free prose. *)
Lemma strip_around_braces (prose body prose' : pystr) :
  str.strip (prose ++ ("{" :: body ++ ["}"]) ++ prose')
  = str.lstrip prose ++ ("{" :: body ++ ["}"]) ++ str.rstrip prose'.
Proof.
  unfold str.strip. cbn [app].
  rewrite lstrip_app_stop by reflexivity.
  rewrite <- (app_assoc body ["}"] prose'). cbn [app].
  replace (str.lstrip prose ++ "{" :: body ++ "}" :: prose')
    with ((str.lstrip prose ++ "{" :: body) ++ "}" :: prose')
    by (now rewrite <- app_assoc).
  rewrite rstrip_app_stop by reflexivity.
  rewrite <- !app_assoc. cbn [app]. reflexivity.
Qed.

Lemma braces_slice (p body q : pystr) :
  ~ In "{" p -> ~ In "}" q ->
  let s := p ++ ("{" :: body ++ ["}"]) ++ q in
  (str.find s (py "{") =? -1)%Z = false
  /\ (str.rfind s (py "}") =? -1)%Z = false
  /\ str.slice s (str.find s (py "{")) (str.rfind s (py "}") + 1)
     = "{" :: body ++ ["}"].
Proof.
  intros Hp Hq s.
  assert (Hf : str.find s (py "{") = Z.of_nat (List.length p)).
  { unfold str.find, s. change (py "{") with ["{"]. cbn [app].
    now rewrite find_from_first. }
  assert (Hr : str.rfind s (py "}")
               = Z.of_nat (List.length p + List.length body + 1)).
  { unfold str.rfind, s. change (py "}") with ["}"].
    replace (p ++ ("{" :: body ++ ["}"]) ++ q)
      with ((p ++ "{" :: body) ++ "}" :: q)
      by (cbn [app]; rewrite <- !app_assoc; reflexivity).
    rewrite rfind_from_last by (assumption || lia).
    rewrite length_app. cbn [List.length]. lia. }
  rewrite Hf, Hr. split; [apply Z.eqb_neq; lia|]. split; [apply Z.eqb_neq; lia|].
  replace (Z.of_nat (List.length p + List.length body + 1) + 1)%Z
    with (Z.of_nat (List.length p + List.length ("{" :: body ++ ["}"])))
    by (cbn [List.length]; rewrite length_app; cbn [List.length]; lia).
  apply slice_middle.
Qed.

(** Where no occurrence of [old] starts inside [s], replacing in
    [s ++ rest] leaves [s] as it is. *)
Lemma replace_from_untouched (old s rest : pystr) :
  (forall p x, s = p ++ x -> x <> [] -> str.startswith (x ++ rest) old = false) ->
  str.replace_from old [] (s ++ rest) 0 = s ++ str.replace_from old [] rest 0.
Proof.
  induction s as [|c s IH]; intros H; [reflexivity|].
  cbn [app str.replace_from].
  change (c :: s ++ rest) with ((c :: s) ++ rest).
  rewrite (H [] (c :: s) eq_refl) by discriminate.
  cbn [app]. f_equal. apply IH.
  intros p x Hs Hx. apply (H (c :: p) x); [now rewrite Hs | assumption].
Qed.

Lemma find_from_nowhere (s sub : pystr) (i : Z) :
  (0 <= i)%Z -> str.find_from s sub i = (-1)%Z ->
  forall p x, s = p ++ x -> str.startswith x sub = false.
Proof.
  revert i. induction s as [|c s IH]; intros i Hi H p x Hs.
  - destruct p; [|discriminate]. simpl in Hs. subst x.
    cbn [str.find_from] in H.
    destruct (str.startswith [] sub); [lia | reflexivity].
  - cbn [str.find_from] in H.
    destruct (str.startswith (c :: s) sub) eqn:E; [lia|].
    destruct p as [|a p].
    + simpl in Hs. now subst x.
    + inversion Hs; subst. eapply (IH (i + 1)%Z); [lia | exact H | reflexivity].
Qed.

(** No fence marker starts inside [newline ++ body ++ newline], even when
    a marker follows it. *)
Lemma no_fence_inside (body : pystr) :
  str.contains body (py "```") = false ->
  forall p x, [newline] ++ body ++ [newline] = p ++ x -> x <> [] ->
              str.startswith (x ++ py "```") (py "```") = false.
Proof.
  intros Hc p x Hs Hx.
  unfold str.contains in Hc. apply negb_false_iff, Z.eqb_eq in Hc.
  assert (Hb : forall q y, body = q ++ y -> str.startswith y (py "```") = false)
    by (apply (find_from_nowhere body (py "```") 0); [lia | exact Hc]).
  destruct p as [|a p].
  - simpl in Hs. subst x. reflexivity.
  - simpl in Hs. inversion Hs as [[Ha Hbody]]. clear Hs Ha a.
    assert (Hy : exists y, x = y ++ [newline] /\ body = p ++ y).
    { destruct (exists_last Hx) as (y & z & ->).
      rewrite app_assoc in Hbody. apply app_inj_tail in Hbody as [-> ->].
      now exists y. }
    destruct Hy as (y & -> & Hbody').
    specialize (Hb p y Hbody').
    destruct y as [|y1 [|y2 [|y3 y]]]; try reflexivity.
    + cbn [app str.startswith py list_ascii_of_string].
      destruct (Ascii.eqb y1 "`"); reflexivity.
    + cbn [app str.startswith py list_ascii_of_string].
      destruct (Ascii.eqb y1 "`"); [|reflexivity].
      destruct (Ascii.eqb y2 "`"); reflexivity.
    + cbn [app str.startswith py list_ascii_of_string] in Hb |- *.
      exact Hb.
Qed.

Lemma startswith_longer (x a b : pystr) :
  str.startswith x a = false -> str.startswith x (a ++ b) = false.
Proof.
  revert x. induction a as [|c a IH]; intros x H; [discriminate|].
  destruct x as [|d x]; [reflexivity|].
  cbn [app str.startswith] in H |- *.
  destruct (Ascii.eqb d c); [|reflexivity]. cbn [andb] in H |- *. now apply IH.
Qed.

Lemma fence_tail_removed (body : pystr) :
  str.contains body (py "```") = false ->
  str.replace_from (py "```") [] (([newline] ++ body ++ [newline]) ++ py "```") 0
  = [newline] ++ body ++ [newline].
Proof.
  intros Hc.
  rewrite replace_from_untouched by (now apply no_fence_inside).
  change (str.replace_from (py "```") [] (py "```") 0) with (@nil ascii).
  apply app_nil_r.
Qed.

Lemma fence_tail_kept (body : pystr) :
  str.contains body (py "```") = false ->
  str.replace_from (py "```json") [] (([newline] ++ body ++ [newline]) ++ py "```") 0
  = ([newline] ++ body ++ [newline]) ++ py "```".
Proof.
  intros Hc.
  rewrite replace_from_untouched; [reflexivity|].
  intros p x Hs Hx.
  change (py "```json") with (py "```" ++ py "json").
  apply startswith_longer. now apply (no_fence_inside body Hc p x).
Qed.

Lemma rstrip_app_space (s : pystr) (c : ascii) :
  str.isspace c = true -> str.rstrip (s ++ [c]) = str.rstrip s.
Proof.
  intros Hc. unfold str.rstrip. rewrite rev_app_distr.
  cbn [rev app str.lstrip]. now rewrite Hc.
Qed.

Lemma strip_app_space (s : pystr) (c : ascii) :
  str.isspace c = true -> str.strip (s ++ [c]) = str.strip s.
Proof.
  intros Hc. unfold str.strip.
  induction s as [|a s IH]; cbn [app str.lstrip].
  - now rewrite Hc.
  - destruct (str.isspace a); [exact IH|].
    change (a :: s ++ [c]) with ((a :: s) ++ [c]).
    now apply rstrip_app_space.
Qed.

(** On content without a fence marker of its own the fence is taken off
    and nothing else: what reaches the decoder is the trimmed content. *)
Lemma cleaned_fenced (body : pystr) :
  str.contains body (py "```") = false ->
  cleaned_text (fenced body) = str.strip body.
Proof.
  intros Hn. unfold cleaned_text.
  assert (Hs : str.strip (fenced body) = fenced body).
  { unfold fenced, str.strip.
    change (py "```json" ++ [newline] ++ body ++ [newline] ++ py "```")
      with ("`" :: (py "``json" ++ [newline] ++ body ++ [newline] ++ py "```")).
    cbn [str.lstrip]. change (str.isspace "`") with false. cbv iota.
    replace ("`" :: py "``json" ++ [newline] ++ body ++ [newline] ++ py "```")
      with (("`" :: py "``json" ++ [newline] ++ body ++ [newline] ++ py "``")
              ++ "`" :: [])
      by (cbn [app py list_ascii_of_string]; rewrite <- !app_assoc; reflexivity).
    now rewrite rstrip_app_stop. }
  rewrite Hs.
  change (str.startswith (fenced body) (py "```")) with true. cbv iota.
  assert (H1 : str.replace (fenced body) (py "```json") []
               = ([newline] ++ body ++ [newline]) ++ py "```").
  { unfold fenced.
    replace ([newline] ++ body ++ [newline] ++ py "```")
      with (([newline] ++ body ++ [newline]) ++ py "```")
      by (rewrite <- !app_assoc; reflexivity).
    change (str.replace (py "```json" ++ ([newline] ++ body ++ [newline]) ++ py "```")
              (py "```json") [])
      with (str.replace_from (py "```json") []
              (([newline] ++ body ++ [newline]) ++ py "```") 0).
    now apply fence_tail_kept. }
  rewrite H1.
  change (str.replace (([newline] ++ body ++ [newline]) ++ py "```") (py "```") [])
    with (str.replace_from (py "```") []
            (([newline] ++ body ++ [newline]) ++ py "```") 0).
  rewrite fence_tail_removed by assumption.
  unfold str.strip. cbn [app str.lstrip].
  change (str.isspace newline) with true. cbv iota.
  change (str.rstrip (str.lstrip (body ++ [newline])))
    with (str.strip (body ++ [newline])).
  now apply strip_app_space.
Qed.

(** X4. A fenced object without a fence marker of its own is decoded as the
    object itself. *)
Lemma fenced_object_round_trip (lim : json.Limits) (inner : pystr) (v : value) :
  let body := "{" :: inner ++ ["}"] in
  str.contains body (py "```") = false ->
  json.loads lim body = inr v ->
  extract_json_from_text lim (fenced body) = inr v.
Proof.
  intros body Hn Hv.
  assert (Hstrip : str.strip body = body).
  { pose proof (strip_around_braces [] inner []) as H.
    cbn [app str.lstrip] in H. unfold str.rstrip in H. cbn [rev str.lstrip] in H.
    rewrite !app_nil_r in H. exact H. }
  unfold extract_json_from_text.
  change (fenced body) with ("`" :: (py "``json" ++ [newline] ++ body ++ [newline] ++ py "```")).
  cbv iota.
  change ("`" :: (py "``json" ++ [newline] ++ body ++ [newline] ++ py "```"))
    with (fenced body).
  now rewrite cleaned_fenced, Hstrip, Hv.
Qed.

(** C5. For an object without a fence marker of its own the claim's
    intent is met (the lemma above); on content that holds a fence marker
    the code departs from it: the marker inside a string of a valid object is
    deleted with the fence, and the object returned differs from the one
    the unwrapped content decodes to. *)
Theorem fence_stripping_alters_content :
  let body := pyq "{'ai_summary':'Asked about ``` blocks'}" in
  json.loads default_limits body
  = inr (VDict [(key "ai_summary", vstr "Asked about ``` blocks")])
  /\ extract_json_from_text default_limits (fenced body)
     = inr (VDict [(key "ai_summary", vstr "Asked about  blocks")])
  /\ extract_json_from_text default_limits (fenced body)
     <> match json.loads default_limits body with
        | inr v => inr v
        | inl f => inl (raised default_limits f)
        end
  /\ extract_json_from_text default_limits
       (fenced (pyq "{'ai_summary':'Asked about blocks'}"))
     = inr (VDict [(key "ai_summary", vstr "Asked about blocks")]).
Proof.
  intros body.
  split; [reflexivity|]. split; [reflexivity|]. split; [|reflexivity].
  vm_compute. discriminate.
Qed.

(** *** Replacing around a character that is not in the pattern *)

Lemma startswith_before (old a b : pystr) (c : ascii) :
  ~ In c old ->
  str.startswith (a ++ c :: b) old = str.startswith a old.
Proof.
  revert a. induction old as [|o old IH]; intros a Hn; [reflexivity|].
  destruct a as [|x a]; cbn [app str.startswith].
  - destruct (Ascii.eqb c o) eqn:E; [|reflexivity].
    apply code_eqb in E. exfalso. apply Hn. now left.
  - rewrite IH; [reflexivity|]. intros H. apply Hn. now right.
Qed.

Lemma startswith_length (a old : pystr) :
  str.startswith a old = true -> List.length old <= List.length a.
Proof.
  revert a. induction old as [|o old IH]; intros a H; [simpl; lia|].
  destruct a as [|x a]; [discriminate|].
  cbn [str.startswith] in H. apply andb_true_iff in H as [_ H].
  apply IH in H. simpl. lia.
Qed.

Lemma replace_from_around (old a b : pystr) (c : ascii) :
  old <> [] -> ~ In c old ->
  forall k,
    k <= List.length a ->
    str.replace_from old [] (a ++ c :: b) k
    = str.replace_from old [] a k ++ c :: str.replace_from old [] b 0.
Proof.
  intros Hold Hn. induction a as [|x a IH]; intros k Hk.
  - assert (k = 0) by (simpl in Hk; lia). subst k.
    cbn [app str.replace_from].
    pose proof (startswith_before old [] b c Hn) as E. cbn [app] in E.
    rewrite E. destruct old as [|o old]; [contradiction | reflexivity].
  - cbn [app str.replace_from]. destruct k as [|k].
    + change (x :: a ++ c :: b) with ((x :: a) ++ c :: b).
      rewrite (startswith_before old (x :: a) b c Hn).
      destruct (str.startswith (x :: a) old) eqn:E.
      * apply startswith_length in E. cbn [List.length] in E.
        cbn [app]. apply IH. lia.
      * cbn [app]. f_equal. apply IH. lia.
    + apply IH. cbn [List.length] in Hk. lia.
Qed.

(** [replace] works on the two sides of such a character separately. *)
Lemma replace_around (old a b : pystr) (c : ascii) :
  old <> [] -> ~ In c old ->
  str.replace (a ++ c :: b) old []
  = str.replace a old [] ++ c :: str.replace b old [].
Proof.
  intros Hold Hn. unfold str.replace.
  destruct old as [|o old]; [contradiction|].
  apply replace_from_around; [discriminate | assumption | lia].
Qed.

Lemma replace_in_braces (old p body q : pystr) :
  old <> [] -> ~ In "{" old -> ~ In "}" old ->
  str.replace ("{" :: body ++ ["}"]) old [] = "{" :: body ++ ["}"] ->
  str.replace (p ++ ("{" :: body ++ ["}"]) ++ q) old []
  = str.replace p old [] ++ ("{" :: body ++ ["}"]) ++ str.replace q old [].
Proof.
  intros Hold Ho Hc Hobj.
  assert (Hnil : str.replace [] old [] = [])
    by (destruct old; [contradiction | reflexivity]).
  assert (Hbody : str.replace body old [] = body).
  { change ("{" :: body ++ ["}"]) with ([] ++ "{" :: body ++ "}" :: []) in Hobj at 1.
    rewrite (replace_around old [] _ "{" Hold Ho) in Hobj.
    rewrite (replace_around old body [] "}" Hold Hc) in Hobj.
    rewrite Hnil in Hobj. cbn [app] in Hobj.
    injection Hobj as Hobj. now apply app_inv_tail in Hobj. }
  replace (p ++ ("{" :: body ++ ["}"]) ++ q) with (p ++ "{" :: body ++ "}" :: q)
    by (cbn [app]; rewrite <- app_assoc; reflexivity).
  rewrite (replace_around old p _ "{" Hold Ho).
  rewrite (replace_around old body q "}" Hold Hc).
  rewrite Hbody. cbn [app]. rewrite <- app_assoc. reflexivity.
Qed.

(** Where [old] occurs nowhere in [s], [s] is left as it is. *)
Lemma replace_nowhere (s old : pystr) :
  old <> [] ->
  (forall p x, s = p ++ x -> str.startswith x old = false) ->
  str.replace s old [] = s.
Proof.
  intros Hold H. unfold str.replace.
  destruct old as [|o old]; [contradiction|].
  pose proof (replace_from_untouched (o :: old) s []) as Hr.
  rewrite !app_nil_r in Hr. rewrite Hr; [reflexivity|].
  intros p x Hs _. rewrite app_nil_r. now apply (H p x).
Qed.

(** A document in braces between brace-free proses is still there, between
    brace-free proses, in the cleaned text: outside a fenced text
    always, and in a fenced text when the document holds no fence marker
    of its own. *)
Lemma cleaned_around_braces (prose body prose' : pystr) :
  let obj := "{" :: body ++ ["}"] in
  let text := prose ++ obj ++ prose' in
  ~ In "{" prose -> ~ In "}" prose' ->
  (str.startswith (str.strip text) (py "```") = true ->
   str.contains obj (py "```") = false) ->
  exists p q,
    cleaned_text text = p ++ obj ++ q /\ ~ In "{" p /\ ~ In "}" q.
Proof.
  intros obj text Hp Hq Hfence.
  assert (Hp' : ~ In "{" (str.lstrip prose))
    by (intros H; apply Hp; now apply in_lstrip).
  assert (Hq' : ~ In "}" (str.rstrip prose'))
    by (intros H; apply Hq; now apply in_rstrip).
  unfold cleaned_text. unfold text, obj in *. rewrite strip_around_braces in *.
  destruct (str.startswith _ (py "```")) eqn:E.
  2:{ now exists (str.lstrip prose), (str.rstrip prose'). }
  specialize (Hfence eq_refl).
  unfold str.contains in Hfence. apply negb_false_iff, Z.eqb_eq in Hfence.
  assert (Hno : forall p x, "{" :: body ++ ["}"] = p ++ x ->
                            str.startswith x (py "```") = false)
    by (apply (find_from_nowhere _ (py "```") 0); [lia | exact Hfence]).
  assert (Hnot : forall c, c = "{" \/ c = "}" -> ~ In c (py "```json")).
  { intros c [-> | ->] H; simpl in H;
      repeat (destruct H as [H|H]; [discriminate|]); exact H. }
  assert (Hnot' : forall c, c = "{" \/ c = "}" -> ~ In c (py "```")).
  { intros c [-> | ->] H; simpl in H;
      repeat (destruct H as [H|H]; [discriminate|]); exact H. }
  rewrite (replace_in_braces (py "```json")); try discriminate; auto.
  2:{ apply replace_nowhere; [discriminate|].
      intros p x Hs. change (py "```json") with (py "```" ++ py "json").
      apply startswith_longer. now apply (Hno p x). }
  rewrite (replace_in_braces (py "```")); try discriminate; auto.
  2:{ apply replace_nowhere; [discriminate | exact Hno]. }
  rewrite strip_around_braces.
  eexists _, _. split; [reflexivity|]. split.
  - intros H. apply in_lstrip, in_replace_empty, in_replace_empty in H.
    contradiction.
  - intros H. apply in_rstrip, in_replace_empty, in_replace_empty in H.
    contradiction.
Qed.

(** C6, as stated, fails: prose with a brace of its own hides the one
    object of the text; a text without any brace that is a JSON document
    by itself is returned, not refused; so is a text that is a JSON
    document around the object; and behind more opening brackets than the
    interpreter has room for, the object is not reached: the first decoding
    raises [RecursionError], which is no [JSONDecodeError] and leaves the
    function. *)
Lemma salvage_counterexamples :
  (json.loads default_limits (pyq "{'a':1}")
   = inr (VDict [(key "a", VNum (py "1"))])
   /\ extract_json_from_text default_limits (pyq "Use {braces}: {'a':1}")
      = inl JSONDecodeError)
  /\ (~ In "{" (py "42") /\ ~ In "}" (py "42")
      /\ extract_json_from_text default_limits (py "42") = inr (VNum (py "42")))
  /\ extract_json_from_text default_limits (pyq "[{'a':1}]")
     = inr (VList [VDict [(key "a", VNum (py "1"))]])
  /\ (~ In "{" (repeat "[" 1200)
      /\ extract_json_from_text default_limits (repeat "[" 1200 ++ pyq "{'a':1}")
         = inl RecursionError).
Proof.
  split; [split; reflexivity|].
  split.
  { split; [|split; [|reflexivity]]; simpl; intros H;
      repeat (destruct H as [H|H]; [discriminate|]); exact H. }
  split; [reflexivity|].
  split; [|vm_compute; reflexivity].
  intros H. apply repeat_spec in H. discriminate.
Qed.

(** C6, amended. Recovery: when a text is a JSON document in braces
    between a prose without [{] and a prose without [}] (either may be
    empty) and, in case the trimmed text starts with a code fence, the
    document holds no fence marker of its own, the salvage parser returns
    what the document decodes to exactly when the decoding of the cleaned
    text as a whole raises [JSONDecodeError] or yields the same value.
    Failure: the parser fails exactly when the text is empty,
    or the decoding of the cleaned text raises and, where what it raises is
    a [JSONDecodeError], the cleaned text has no [{], or no [}], or the
    decoding of the part from its first [{] to its last [}] raises too.
    And for a text without [{] or without [}] the parser never returns an
    object: it returns what the whole cleaned text decodes to, or raises
    the second [ValueError] for a [JSONDecodeError] and otherwise what
    the decoder raised ([RecursionError], the [ValueError] of an
    integer with too many digits).  All of it under any limits of the
    interpreter. *)
Theorem salvage_recovery_and_failure (lim : json.Limits) (text : pystr) :
  (forall prose body prose' v,
      text = prose ++ ("{" :: body ++ ["}"]) ++ prose' ->
      ~ In "{" prose -> ~ In "}" prose' ->
      (str.startswith (str.strip text) (py "```") = true ->
       str.contains ("{" :: body ++ ["}"]) (py "```") = false) ->
      json.loads lim ("{" :: body ++ ["}"]) = inr v ->
      (extract_json_from_text lim text = inr v <->
       json.loads lim (cleaned_text text) = inl json.Malformed
       \/ json.loads lim (cleaned_text text) = inr v))
  /\ ((exists e, extract_json_from_text lim text = inl e) <->
      text = []
      \/ exists f,
          json.loads lim (cleaned_text text) = inl f
          /\ (f = json.Malformed ->
              ~ In "{" (cleaned_text text)
              \/ ~ In "}" (cleaned_text text)
              \/ exists f',
                  json.loads lim
                    (str.slice (cleaned_text text)
                       (str.find (cleaned_text text) (py "{"))
                       (str.rfind (cleaned_text text) (py "}") + 1))
                  = inl f'))
  /\ (~ In "{" text \/ ~ In "}" text ->
      (forall d, extract_json_from_text lim text <> inr (VDict d))
      /\ (text <> [] ->
          extract_json_from_text lim text
          = match json.loads lim (cleaned_text text) with
            | inr v => inr v
            | inl json.Malformed =>
                inl (ValueError "Could not extract valid JSON")
            | inl f => inl (raised lim f)
            end)).
Proof.
  split; [|split].
  - intros prose body prose' v Ht Hp Hq Hfence Hobj.
    assert (Hne : text <> []) by (rewrite Ht; destruct prose; discriminate).
    rewrite Ht in Hfence.
    destruct (cleaned_around_braces prose body prose' Hp Hq Hfence)
      as (p & q & Hc & Hp' & Hq').
    rewrite <- Ht in Hc.
    destruct (braces_slice p body q Hp' Hq') as (Hf & Hr & Hs).
    cbv zeta in Hf, Hr, Hs. rewrite <- Hc in Hf, Hr, Hs.
    unfold extract_json_from_text.
    destruct text as [|c t] eqn:Etext; [contradiction|].
    rewrite <- Etext in *. clear Etext c t.
    destruct (json.loads lim (cleaned_text text)) as [[| |n]|v'].
    + rewrite Hf, Hr, Hs, Hobj.
      split; [intros _; left; reflexivity | intros _; reflexivity].
    + split; [discriminate | intros [H|H]; discriminate].
    + split; [discriminate | intros [H|H]; discriminate].
    + split.
      * intros H. right. injection H as ->. reflexivity.
      * intros [H|H]; [discriminate|]. injection H as ->. reflexivity.
  - unfold extract_json_from_text.
    destruct text as [|c t] eqn:Etext.
    { split; [now left | intros _; now eexists]. }
    rewrite <- Etext. set (cleaned := cleaned_text text).
    change (py "{") with ["{"]. change (py "}") with ["}"].
    destruct (json.loads lim cleaned) as [f|v] eqn:El.
    2:{ split.
        - intros [e He]. discriminate.
        - intros [H|(f & Hf & _)]; [rewrite Etext in H|]; discriminate. }
    destruct f as [| |n].
    2,3: (split; [|intros _; now eexists]; intros _; right;
          eexists; split; [reflexivity | discriminate]).
    destruct (str.find cleaned ["{"] =? -1)%Z eqn:Ef.
    { split; [|intros _; now eexists].
      intros _. right. exists json.Malformed. split; [reflexivity|].
      intros _. left. now apply find_char_absent. }
    destruct (str.rfind cleaned ["}"] =? -1)%Z eqn:Er.
    { split; [|intros _; now eexists].
      intros _. right. exists json.Malformed. split; [reflexivity|].
      intros _. right. left. now apply rfind_char_absent. }
    cbn [negb andb].
    destruct (json.loads lim (str.slice _ _ _)) as [f'|v] eqn:Es.
    + split; [|intros _; now eexists].
      intros _. right. exists json.Malformed. split; [reflexivity|].
      intros _. right. right. now exists f'.
    + split.
      * intros [e He]. discriminate.
      * intros [H|(f & Hf & Hrest)].
        -- rewrite Etext in H. discriminate.
        -- injection Hf as <-.
           destruct (Hrest eq_refl) as [H|[H|[f' H]]].
           ++ apply find_char_absent in H. congruence.
           ++ apply rfind_char_absent in H. congruence.
           ++ discriminate.
  - intros Hno.
    assert (Hc : ~ In "{" (cleaned_text text) \/ ~ In "}" (cleaned_text text)).
    { destruct Hno as [H|H]; [left|right]; intros Hin; apply H;
        now apply in_cleaned_text. }
    assert (Hrun : text <> [] ->
                   extract_json_from_text lim text
                   = match json.loads lim (cleaned_text text) with
                     | inr v => inr v
                     | inl json.Malformed =>
                         inl (ValueError "Could not extract valid JSON")
                     | inl f => inl (raised lim f)
                     end).
    { intros Hne. unfold extract_json_from_text.
      destruct text as [|c t] eqn:Etext; [contradiction|].
      rewrite <- Etext in *.
      destruct (json.loads lim (cleaned_text text)) as [[| |n]|v];
        try reflexivity.
      change (py "{") with ["{"]. change (py "}") with ["}"].
      destruct Hc as [H|H].
      - apply find_char_absent in H. rewrite H. reflexivity.
      - apply rfind_char_absent in H. rewrite H.
        now rewrite andb_false_r. }
    split; [|exact Hrun].
    intros d Hd.
    destruct text as [|c t] eqn:Etext; [discriminate|].
    rewrite <- Etext in *.
    rewrite Hrun in Hd by (rewrite Etext; discriminate).
    destruct (json.loads lim (cleaned_text text)) as [[| |n]|v] eqn:El;
      try discriminate.
    injection Hd as Hd. subst v.
    apply loads_dict_braces in El. destruct El as [H1 H2].
    destruct Hc as [H|H]; contradiction.
Qed.

Lemma salvage_recovery_and_failure_witness :
  let body := pyq "'name':'Ann','lead_score':80" in
  let text := fenced ("{" :: body ++ ["}"]) ++ newline :: py "Anything else?" in
  text = py "```json" ++ [newline] ++ ("{" :: body ++ ["}"])
         ++ newline :: py "```" ++ newline :: py "Anything else?"
  /\ ~ In "{" (py "```json" ++ [newline])
  /\ ~ In "}" (newline :: py "```" ++ newline :: py "Anything else?")
  /\ str.contains ("{" :: body ++ ["}"]) (py "```") = false
  /\ json.loads default_limits ("{" :: body ++ ["}"])
     = inr (VDict [(key "name", vstr "Ann"); (key "lead_score", VNum (py "80"))])
  /\ json.loads default_limits (cleaned_text text) = inl json.Malformed
  /\ extract_json_from_text default_limits text
     = inr (VDict [(key "name", vstr "Ann"); (key "lead_score", VNum (py "80"))]).
Proof.
  intros body text.
  assert (H1 : ~ In "{" (py "```json" ++ [newline])).
  { simpl. intros H. repeat (destruct H as [H|H]; [discriminate|]). exact H. }
  assert (H2 : ~ In "}" (newline :: py "```" ++ newline :: py "Anything else?")).
  { simpl. intros H. repeat (destruct H as [H|H]; [discriminate|]). exact H. }
  split; [reflexivity|]. split; [exact H1|]. split; [exact H2|].
  split; [reflexivity|]. split; [reflexivity|]. split; [reflexivity|].
  apply (proj1 (salvage_recovery_and_failure default_limits text)
           (py "```json" ++ [newline]) body
           (newline :: py "```" ++ newline :: py "Anything else?"));
    try reflexivity; try assumption.
  left. reflexivity.
Defined.

(** ** The model on sample inputs *)

Example loads_nested :
  json.loads default_limits
    (pyq " {'a': [1, -2.5e3, true, null], 'b': {'c': 'x'}, 'a': 'last'} ")
  = inr (VDict [ (key "a", vstr "last");
                 (key "b", VDict [(key "c", vstr "x")]) ]).
Proof. reflexivity. Qed.

Example loads_refuses :
  map (json.loads default_limits)
      [ py "01"; py "1."; py "-"; pyq "{'a':1,}"; py "[1,]"; py "[1 2]";
        py "tru"; py "nullx"; pyq "{'a' 1}"; pyq "'open"; py "  " ]
  = repeat (inl json.Malformed) 11.
Proof. reflexivity. Qed.

Example loads_surrogate_pair :
  json.loads default_limits
    ([dquote; "\"] ++ py "ud83d" ++ ["\"] ++ py "ude00" ++ [dquote])
  = inr (VStr [128512%N])
  /\ json.loads default_limits
       ([dquote; "\"] ++ py "ud83d" ++ ["\"] ++ py "u0041" ++ [dquote])
     = inr (VStr [55357%N; 65%N])
  /\ json.loads default_limits
       ([dquote; "\"] ++ py "ud83d" ++ ["\"] ++ py "u00" ++ [dquote])
     = inl json.Malformed.
Proof. repeat split; reflexivity. Qed.

(** The limits in the order the decoder meets them: the opening bracket
    that finds no room, and the integer with too many digits, are refused
    where they stand, before any later mistake of the text is seen. *)
Example loads_limits :
  let deep n := repeat "[" n ++ repeat "]" n in
  json.loads (json.mkLimits 3 0 4300) (deep 3)
  = inr (VList [VList [VList []]])
  /\ json.loads (json.mkLimits 3 0 4300) (deep 4) = inl json.TooDeep
  /\ json.loads (json.mkLimits 3 0 4300) (repeat "[" 4) = inl json.TooDeep
  /\ json.loads (json.mkLimits 3 0 4300) (py "x" ++ repeat "[" 4)
     = inl json.Malformed
  /\ json.loads default_limits ("-" :: repeat "7" 4300)
     = inr (VNum ("-" :: repeat "7" 4300))
  /\ json.loads default_limits ("[" :: repeat "7" 4301 ++ py " x")
     = inl (json.TooManyDigits 4301)
  /\ json.loads default_limits (repeat "7" 4301 ++ py ".5")
     = inr (VNum (repeat "7" 4301 ++ py ".5"))
  /\ json.loads (json.mkLimits 897 3 0) (repeat "7" 4301)
     = inr (VNum (repeat "7" 4301))
  /\ raised default_limits (json.TooManyDigits 4301)
     = ValueError
         "Exceeds the limit (4300 digits) for integer string conversion: value has 4301 digits; use sys.set_int_max_str_digits() to increase the limit".
Proof. repeat split; vm_compute; reflexivity. Qed.

(** Near the limit, with room for six containers of which the last three
    leave none for a [JSONDecodeError]: a missing delimiter is a
    [JSONDecodeError] inside three containers and a [RecursionError]
    inside four; a missing value is a [JSONDecodeError] at any depth; and
    the salvage parser reaches the object behind two opening brackets,
    not behind four. *)
Example loads_near_the_limit :
  let lim := json.mkLimits 3 3 4300 in
  json.loads lim (py "[[[1 x") = inl json.Malformed
  /\ json.loads lim (py "[[[[1 x") = inl json.TooDeep
  /\ json.loads lim (py "[[[[[[x") = inl json.Malformed
  /\ json.loads lim (py "[[[[[[[x") = inl json.TooDeep
  /\ json.loads lim (pyq "[[[['open") = inl json.TooDeep
  /\ json.loads lim (pyq "[[[[[{'a':1}]]]]]")
     = inr (VList [VList [VList [VList [VList
              [VDict [(key "a", VNum (py "1"))]]]]]])
  /\ json.loads lim (pyq "[[[[[[{'a':1}]]]]]]") = inl json.TooDeep
  /\ extract_json_from_text lim (pyq "[[{'a':1}")
     = inr (VDict [(key "a", VNum (py "1"))])
  /\ extract_json_from_text lim (pyq "[[[[{'a':1}") = inl RecursionError.
Proof. repeat split; reflexivity. Qed.

Example text_primitives :
  str.replace (py "aaaa") (py "aa") (py "b") = py "bb"
  /\ str.find (py "} {") (py "{") = 2%Z
  /\ str.rfind (py "} {") (py "}") = 0%Z
  /\ str.slice (py "} {") 2 1 = []
  /\ str.strip (" " :: newline :: py "a b" ++ [ascii_of_nat 160]) = py "a b".
Proof. repeat split; reflexivity. Qed.

(** The four turns of one session: no contact, a dashed number, a number
    (an identifier is minted and saved), then the identifier echoed. *)
Example session_scenarios :
  let w := sample_world (Some (pyq "{'intent':'sales'}")) true in
  let minted := uuid4 w in
  (exists t, chat w (sample_request "Hi, I need a website" None)
             = (inr (mkChatResponse (py "Hello") None), t)
             /\ filter is_post t = [])
  /\ (exists t, chat w (sample_request "555-123-4567" None)
                = (inr (mkChatResponse (py "Hello") None), t)
                /\ filter is_post t = [])
  /\ (exists t p, chat w (sample_request "5551234567" None)
                  = (inr (mkChatResponse (py "Hello") (Some minted)), t)
                  /\ filter is_post t = [EPost (py "saveLead") p])
  /\ (exists t p, chat w (sample_request "thanks" (Some minted))
                  = (inr (mkChatResponse (py "Hello") (Some minted)), t)
                  /\ filter is_post t = [EPost (py "updateLead") p]).
Proof.
  intros w minted.
  split; [eexists; split; reflexivity|].
  split; [eexists; split; reflexivity|].
  split; eexists _, _; split; reflexivity.
Qed.

(** * Further properties of the code *)

(** ** The salvage parser and surrounding whitespace *)

Lemma lstrip_pad (pad s : pystr) :
  Forall (fun c => str.isspace c = true) pad ->
  str.lstrip (pad ++ s) = str.lstrip s.
Proof.
  induction 1 as [|c pad Hc _ IH]; [reflexivity|].
  cbn [app str.lstrip]. now rewrite Hc.
Qed.

Lemma strip_pad_right (s pad : pystr) :
  Forall (fun c => str.isspace c = true) pad ->
  str.strip (s ++ pad) = str.strip s.
Proof.
  induction pad as [|c pad IH] using rev_ind; intros H.
  - now rewrite app_nil_r.
  - apply Forall_app in H as [Hp Hc]. inversion Hc; subst.
    rewrite app_assoc, strip_app_space by assumption. now apply IH.
Qed.

Lemma strip_pad (pad s pad' : pystr) :
  Forall (fun c => str.isspace c = true) pad ->
  Forall (fun c => str.isspace c = true) pad' ->
  str.strip (pad ++ s ++ pad') = str.strip s.
Proof.
  intros H H'. rewrite <- (strip_pad_right s pad') by assumption.
  unfold str.strip. now rewrite lstrip_pad.
Qed.

Lemma cleaned_text_pad (pad s pad' : pystr) :
  Forall (fun c => str.isspace c = true) pad ->
  Forall (fun c => str.isspace c = true) pad' ->
  cleaned_text (pad ++ s ++ pad') = cleaned_text s.
Proof.
  intros H H'. unfold cleaned_text. now rewrite strip_pad.
Qed.

(** X1. Whitespace around a non-empty text never changes what the salvage
    parser returns or raises. *)
Theorem salvage_ignores_padding (lim : json.Limits) (pad text pad' : pystr) :
  Forall (fun c => str.isspace c = true) pad ->
  Forall (fun c => str.isspace c = true) pad' ->
  text <> [] ->
  extract_json_from_text lim (pad ++ text ++ pad')
  = extract_json_from_text lim text.
Proof.
  intros H H' Hne.
  pose proof (cleaned_text_pad pad text pad' H H') as Hc.
  unfold extract_json_from_text.
  destruct text as [|c t]; [contradiction|].
  destruct (pad ++ (c :: t) ++ pad') as [|c' t'] eqn:E.
  - destruct pad; discriminate.
  - rewrite Hc. reflexivity.
Qed.

Lemma salvage_ignores_padding_witness :
  let pad := [" "; newline] in
  let text := pyq "{'intent':'sales'}" in
  Forall (fun c => str.isspace c = true) pad
  /\ Forall (fun c => str.isspace c = true) [newline]
  /\ text <> []
  /\ extract_json_from_text default_limits (pad ++ text ++ [newline])
     = extract_json_from_text default_limits text.
Proof.
  intros pad text.
  assert (H1 : Forall (fun c => str.isspace c = true) pad)
    by (repeat constructor).
  assert (H2 : Forall (fun c => str.isspace c = true) [newline])
    by (repeat constructor).
  split; [exact H1|]. split; [exact H2|]. split; [discriminate|].
  apply (salvage_ignores_padding default_limits pad text [newline] H1 H2).
  discriminate.
Defined.

Lemma loads_nothing (lim : json.Limits) :
  json.loads lim [] = inl json.Malformed.
Proof.
  unfold json.loads. cbn [json.skip_ws].
  now destruct (json.recursion_room lim).
Qed.

(** X2. A text of whitespace only is not the empty text: it passes the
    emptiness test, is trimmed to nothing, and is refused with the second
    [ValueError]. *)
Theorem salvage_blank_text (lim : json.Limits) (text : pystr) :
  text <> [] ->
  Forall (fun c => str.isspace c = true) text ->
  extract_json_from_text lim text
  = inl (ValueError "Could not extract valid JSON").
Proof.
  intros Hne Hs.
  assert (Hc : cleaned_text text = []).
  { pose proof (cleaned_text_pad text [] [] Hs (Forall_nil _)) as H.
    rewrite !app_nil_r in H. rewrite H. reflexivity. }
  unfold extract_json_from_text.
  destruct text as [|c t]; [contradiction|].
  rewrite Hc, loads_nothing. reflexivity.
Qed.

Lemma salvage_blank_text_witness :
  let text := [" "; newline; " "] in
  text <> []
  /\ Forall (fun c => str.isspace c = true) text
  /\ extract_json_from_text default_limits text
     = inl (ValueError "Could not extract valid JSON").
Proof.
  intros text.
  assert (H : Forall (fun c => str.isspace c = true) text)
    by (repeat constructor).
  split; [discriminate|]. split; [exact H|].
  apply (salvage_blank_text default_limits text); [discriminate | exact H].
Defined.

Lemma slice_empty (s : pystr) (start stop : Z) :
  (0 <= stop <= start)%Z -> str.slice s start stop = [].
Proof.
  intros H. unfold str.slice, str.clamp.
  destruct (start <? 0)%Z eqn:E1; [apply Z.ltb_lt in E1; lia|].
  destruct (stop <? 0)%Z eqn:E2; [apply Z.ltb_lt in E2; lia|].
  replace (Z.to_nat _) with 0 by lia. reflexivity.
Qed.

(** X3. When the last closing brace of the cleaned text stands before its
    first opening brace, the slice between them is empty and the second
    decoding raises [JSONDecodeError], which leaves the function. *)
Theorem salvage_reversed_braces (lim : json.Limits) (text : pystr) :
  text <> [] ->
  json.loads lim (cleaned_text text) = inl json.Malformed ->
  (0 <= str.rfind (cleaned_text text) (py "}")
   < str.find (cleaned_text text) (py "{"))%Z ->
  extract_json_from_text lim text = inl JSONDecodeError.
Proof.
  intros Hne Hl Hb. unfold extract_json_from_text.
  destruct text as [|c t]; [contradiction|].
  set (cleaned := cleaned_text (c :: t)) in *.
  rewrite Hl.
  destruct (str.find cleaned (py "{") =? -1)%Z eqn:Ef;
    [apply Z.eqb_eq in Ef; lia|].
  destruct (str.rfind cleaned (py "}") =? -1)%Z eqn:Er;
    [apply Z.eqb_eq in Er; lia|].
  cbn [negb andb]. rewrite slice_empty by lia.
  rewrite loads_nothing. reflexivity.
Qed.

Lemma salvage_reversed_braces_witness :
  let text := py "done } then {" in
  text <> []
  /\ json.loads default_limits (cleaned_text text) = inl json.Malformed
  /\ (0 <= str.rfind (cleaned_text text) (py "}")
      < str.find (cleaned_text text) (py "{"))%Z
  /\ extract_json_from_text default_limits text = inl JSONDecodeError.
Proof.
  intros text.
  split; [discriminate|]. split; [reflexivity|].
  assert (H : (0 <= str.rfind (cleaned_text text) (py "}")
               < str.find (cleaned_text text) (py "{"))%Z)
    by (vm_compute; split; [discriminate | reflexivity]).
  split; [exact H|].
  apply (salvage_reversed_braces default_limits text);
    [discriminate | reflexivity | exact H].
Defined.

(** ** Contact flags *)

(** X5. No message is both a phone number and an email address. *)
Theorem contact_flags_exclusive (latest_user_message : pystr) :
  is_phone latest_user_message && is_email latest_user_message = false.
Proof.
  destruct (is_phone latest_user_message) eqn:Hp; [|reflexivity].
  destruct (is_email latest_user_message) eqn:He; [|reflexivity].
  apply is_phone_spec in Hp as [Hd _]. apply is_email_spec in He as [Ha _].
  rewrite Forall_forall in Hd. specialize (Hd _ Ha). discriminate.
Qed.

(** ** Dicts: assignment and lookup *)

Lemma ustr_eqb_eq (a b : ustr) : ustr_eqb a b = true <-> a = b.
Proof.
  unfold ustr_eqb. destruct (list_eq_dec N.eq_dec a b); split; auto; discriminate.
Qed.

Lemma ustr_eqb_refl (a : ustr) : ustr_eqb a a = true.
Proof. now apply ustr_eqb_eq. Qed.

Lemma ustr_eqb_neq (a b : ustr) : a <> b -> ustr_eqb a b = false.
Proof.
  intros H. destruct (ustr_eqb a b) eqn:E; [|reflexivity].
  apply ustr_eqb_eq in E. contradiction.
Qed.

Lemma dict_get_set_same (d : list (ustr * value)) (k : ustr) (v : value) :
  dict_get (dict_set d k v) k = Some v.
Proof.
  induction d as [|[k0 v0] d IH]; simpl.
  - now rewrite ustr_eqb_refl.
  - destruct (ustr_eqb k0 k) eqn:E; simpl; now rewrite E.
Qed.

Lemma dict_get_set_other (d : list (ustr * value)) (k k' : ustr) (v : value) :
  k' <> k -> dict_get (dict_set d k v) k' = dict_get d k'.
Proof.
  intros Hne. induction d as [|[k0 v0] d IH]; simpl.
  - rewrite ustr_eqb_neq; [reflexivity | congruence].
  - destruct (ustr_eqb k0 k) eqn:E; simpl.
    + apply ustr_eqb_eq in E. subst k0.
      rewrite ustr_eqb_neq; [reflexivity | congruence].
    + destruct (ustr_eqb k0 k'); [reflexivity | exact IH].
Qed.

Lemma dict_get_absent (d : list (ustr * value)) (k : ustr) :
  ~ In k (map fst d) -> dict_get d k = None.
Proof.
  induction d as [|[k0 v0] d IH]; intros H; simpl; [reflexivity|].
  rewrite ustr_eqb_neq by (intros ->; apply H; now left).
  apply IH. intros Hin. apply H. now right.
Qed.

(** [{**d, **pairs}]: the items of [pairs] win. *)
Lemma dict_get_update (pairs : list (ustr * value)) :
  NoDup (map fst pairs) ->
  forall d k,
    dict_get (dict_update d pairs) k
    = match dict_get pairs k with
      | Some v => Some v
      | None => dict_get d k
      end.
Proof.
  unfold dict_update.
  induction pairs as [|[k0 v0] pairs IH]; intros Hnd d k; [reflexivity|].
  inversion Hnd as [|? ? Hnotin Hnd']; subst.
  cbn [fold_left fst snd dict_get]. rewrite (IH Hnd').
  destruct (ustr_eqb k0 k) eqn:E.
  - apply ustr_eqb_eq in E. subst k0.
    rewrite (dict_get_absent pairs k Hnotin). apply dict_get_set_same.
  - destruct (dict_get pairs k); [reflexivity|].
    apply dict_get_set_other. intros ->. now rewrite ustr_eqb_refl in E.
Qed.

Lemma dict_set_keys (d : list (ustr * value)) (k k' : ustr) (v : value) :
  In k' (map fst (dict_set d k v)) -> k' = k \/ In k' (map fst d).
Proof.
  induction d as [|[k0 v0] d IH]; simpl.
  - intros [H|[]]. now left.
  - destruct (ustr_eqb k0 k); simpl.
    + intros H. now right.
    + intros [H|H]; [right; now left|].
      destruct (IH H) as [H'|H']; [now left | right; now right].
Qed.

Lemma dict_set_keys_once (d : list (ustr * value)) (k : ustr) (v : value) :
  NoDup (map fst d) -> NoDup (map fst (dict_set d k v)).
Proof.
  induction d as [|[k0 v0] d IH]; intros H; simpl.
  - constructor; [intros [] | constructor].
  - inversion H as [|? ? Hnotin Hnd]; subst.
    destruct (ustr_eqb k0 k) eqn:E; simpl.
    + now constructor.
    + constructor; [|now apply IH].
      intros Hin. apply dict_set_keys in Hin as [->|Hin]; [|contradiction].
      now rewrite ustr_eqb_refl in E.
Qed.

Lemma dict_update_keys_once (pairs d : list (ustr * value)) :
  NoDup (map fst d) -> NoDup (map fst (dict_update d pairs)).
Proof.
  unfold dict_update. revert d.
  induction pairs as [|[k0 v0] pairs IH]; intros d H; [exact H|].
  cbn [fold_left]. apply IH. now apply dict_set_keys_once.
Qed.

(** ** Decoded objects list every key once *)

Section KeysOfContainers.

Variable scan : pystr -> json.failure + (value * pystr).
Variable err : json.failure.
Hypothesis scan_keyed : forall s v r, scan s = inr (v, r) -> keys_once v.

Lemma array_items_keyed (n : nat) :
  forall s acc v r,
    Forall keys_once acc ->
    json.array_items scan err n s acc = inr (v, r) -> well_keyed v.
Proof.
  induction n as [|n IH]; intros s acc v r Hacc H; [discriminate|].
  cbn [json.array_items] in H.
  destruct (scan s) as [f|[v1 r1]] eqn:E1; [discriminate|].
  apply scan_keyed in E1.
  destruct (json.skip_ws r1) as [|c r2]; [discriminate|].
  destruct (Ascii.eqb c "]").
  - injection H as Hv Hr. subst. split; [exact I|].
    cbn [rev]. apply Forall_app.
    split; [now apply Forall_rev | now repeat constructor].
  - destruct (Ascii.eqb c ","); [|discriminate].
    eapply IH; [|exact H]. now constructor.
Qed.

Lemma object_items_keyed (n : nat) :
  forall s pairs v r,
    json.object_items scan err n s pairs = inr (v, r) -> well_keyed v.
Proof.
  induction n as [|n IH]; intros s pairs v r H; [discriminate|].
  cbn [json.object_items] in H.
  repeat (destruct_in H; try discriminate).
  - injection H as Hv Hr. subst. split; [|exact I].
    apply dict_update_keys_once. constructor.
  - eapply IH, H.
Qed.

End KeysOfContainers.

Lemma well_keyed_scalar (v : value) :
  match v with VList _ | VDict _ => False | _ => True end -> well_keyed v.
Proof. destruct v; intros H; try contradiction; split; exact I. Qed.

Lemma scan_once_keyed (max_digits error_room room : nat) :
  forall s v r,
    json.scan_once max_digits error_room room s = inr (v, r) -> well_keyed v.
Proof.
  induction room as [|room IH]; intros s v r H;
    destruct s as [|c s]; try discriminate;
    cbn [json.scan_once] in H;
    (destruct (Ascii.eqb c dquote);
     [ destruct (json.scanstring s []) as [[x t]|]; [|discriminate];
       injection H as Hv Hr; subst; now apply well_keyed_scalar | ]);
    (destruct (Ascii.eqb c "{"); [try discriminate|
     destruct (Ascii.eqb c "["); [try discriminate|
     apply scan_scalar_consumed in H; now apply well_keyed_scalar]]).
  - destruct (json.skip_ws s) as [|c1 r1]; [discriminate|].
    destruct (Ascii.eqb c1 "}").
    + injection H as Hv Hr. subst. split; [constructor | exact I].
    + destruct (Ascii.eqb c1 dquote); [|discriminate].
      eapply object_items_keyed, H.
  - assert (IH' : forall s v r,
               json.scan_once max_digits error_room room s = inr (v, r) -> keys_once v)
      by (intros s' v' r' H'; now apply (IH s' v' r')).
    destruct (json.skip_ws s) as [|c1 r1]; [discriminate|].
    destruct (Ascii.eqb c1 "]").
    + injection H as Hv Hr. subst. split; [exact I | constructor].
    + eapply (array_items_keyed _ _ IH'); [|exact H]. constructor.
Qed.

Lemma loads_keyed (lim : json.Limits) (s : pystr) (v : value) :
  json.loads lim s = inr v -> well_keyed v.
Proof.
  unfold json.loads. intros H.
  destruct (json.scan_once _ _ _ _) as [f|[v' t]] eqn:E; [discriminate|].
  destruct (json.skip_ws t); [|discriminate].
  injection H as Hv. subst. eapply scan_once_keyed, E.
Qed.

Lemma extract_json_keyed (lim : json.Limits) (text : pystr) (v : value) :
  extract_json_from_text lim text = inr v -> well_keyed v.
Proof.
  unfold extract_json_from_text. intros H.
  destruct text as [|c t]; [discriminate|].
  destruct (json.loads lim (cleaned_text (c :: t))) as [[| |n]|v'] eqn:E;
    try discriminate.
  - destruct (_ && _); [|discriminate].
    destruct (json.loads lim (str.slice _ _ _)) as [f|v'] eqn:E';
      [discriminate|].
    injection H as Hv. subst. eapply loads_keyed, E'.
  - injection H as Hv. subst. eapply loads_keyed, E.
Qed.

Lemma ensure_dict_keyed (v : value) :
  well_keyed v -> exists d, ensure_dict v = VDict d /\ NoDup (map fst d).
Proof.
  intros [Hk Hl]. destruct v as [| | | |l|d];
    try (exists []; split; [reflexivity | constructor]).
  - destruct l as [|x l]; [exists []; split; [reflexivity | constructor]|].
    inversion Hl as [|? ? Hx _]; subst.
    destruct x; try (exists []; split; [reflexivity | constructor]).
    eexists. split; [reflexivity | exact Hx].
  - exists d. split; [reflexivity | exact Hk].
Qed.

(** The record the handler goes on with is a dict with every key once. *)
Lemma extracted_record_keyed (lim : json.Limits) (raw : pystr) :
  exists d, extracted_record lim raw = VDict d /\ NoDup (map fst d).
Proof.
  unfold extracted_record. apply ensure_dict_keyed.
  destruct (extract_json_from_text lim raw) as [e|v] eqn:E.
  - split; [|exact I]. cbn [keys_once fallback_record].
    repeat (constructor; [simpl; intros H;
                          repeat (destruct H as [H|H]; [discriminate|]);
                          exact H|]).
    constructor.
  - eapply extract_json_keyed, E.
Qed.

(** ** What the handler sends and in which order *)

(** Every webhook call of a run that ends in a response carries the
    payload built from the response's identifier, the record extracted
    from the backend's output and the transcript with the reply. *)
Lemma chat_post_payload (w : World) (request : ChatRequest)
    (resp : ChatResponse) (trace : list event) (a : pystr) (p : value) :
  chat w request = (inr resp, trace) ->
  In (EPost a p) trace ->
  let updated := messages request ++ [mkMessage (py "assistant") (reply resp)] in
  exists raw,
    extraction_completion w updated = Some raw
    /\ p = payload_of w (response_lead_id resp) (extracted_record (interpreter w) raw) updated.
Proof.
  intros Hc Hin.
  destruct (chat_returns_inv _ _ _ _ Hc) as (last & r & raw & Hl & Hr & Hx).
  rewrite (chat_run w request last r raw Hl Hr Hx) in Hc.
  fold (extracted_record (interpreter w) raw) in Hc.
  destruct (truthy (lead_id request)).
  - inversion Hc; subst resp trace; clear Hc. cbn [reply response_lead_id].
    exists raw. split; [exact Hx|].
    simpl in Hin. repeat (destruct Hin as [Hin|Hin]; [try discriminate|]);
      [now inversion Hin | contradiction].
  - destruct (is_phone _ || is_email _).
    + inversion Hc; subst resp trace; clear Hc. cbn [reply response_lead_id].
      exists raw. split; [exact Hx|].
      simpl in Hin. repeat (destruct Hin as [Hin|Hin]; [try discriminate|]);
        [now inversion Hin | contradiction].
    + inversion Hc; subst resp trace; clear Hc.
      simpl in Hin. repeat (destruct Hin as [Hin|Hin]; [discriminate|]).
      contradiction.
Qed.

(** X6. The [conversation_log] of every payload sent is the whole transcript
    of the request followed by the reply just generated, whatever the
    extracted record holds under that key. *)
Theorem payload_conversation_log (w : World) (request : ChatRequest)
    (resp : ChatResponse) (trace : list event) (a : pystr) (p : value) :
  chat w request = (inr resp, trace) ->
  In (EPost a p) trace ->
  dict_get (dict_items p) (key "conversation_log")
  = Some (VList (map message_dict
                   (messages request
                    ++ [mkMessage (py "assistant") (reply resp)]))).
Proof.
  intros Hc Hin.
  destruct (chat_post_payload _ _ _ _ _ _ Hc Hin) as (raw & _ & ->).
  unfold payload_of. cbn [dict_items]. apply dict_get_set_same.
Qed.

Lemma payload_conversation_log_witness :
  let w := sample_world (Some (pyq "{'conversation_log':'none'}")) true in
  let request := sample_request "5551234567" None in
  exists resp trace a p,
    chat w request = (inr resp, trace)
    /\ In (EPost a p) trace
    /\ dict_get (dict_items p) (key "conversation_log")
       = Some (VList (map message_dict
                        (messages request
                         ++ [mkMessage (py "assistant") (reply resp)]))).
Proof.
  intros w request.
  eexists _, _, _, _.
  assert (Hc : chat w request
               = (inr (mkChatResponse (py "Hello") (Some (uuid4 w))),
                  snd (chat w request))) by reflexivity.
  assert (Hin : In (EPost (py "saveLead")
                      (payload_of w (Some (uuid4 w))
                         (extracted_record default_limits (pyq "{'conversation_log':'none'}"))
                         (messages request
                          ++ [mkMessage (py "assistant") (py "Hello")])))
                   (snd (chat w request))).
  { vm_compute. do 5 right. left. reflexivity. }
  split; [exact Hc|]. split; [exact Hin|].
  exact (payload_conversation_log w request _ _ _ _ Hc Hin).
Defined.

(** X7. For every other key the extracted record wins: a payload holds the
    extracted record's value where it has one, and the handler's own
    [created_at], [lead_id] and [source] only where it has none.  So a
    [lead_id] in the backend's output replaces the identifier of the
    lifecycle step in what is sent. *)
Theorem payload_extracted_wins (w : World) (request : ChatRequest)
    (resp : ChatResponse) (trace : list event) (a : pystr) (p : value)
    (raw : pystr) :
  chat w request = (inr resp, trace) ->
  In (EPost a p) trace ->
  extraction_completion w
    (messages request ++ [mkMessage (py "assistant") (reply resp)]) = Some raw ->
  forall k,
    k <> key "conversation_log" ->
    dict_get (dict_items p) k
    = match dict_get (dict_items (extracted_record (interpreter w) raw)) k with
      | Some v => Some v
      | None => dict_get (payload_head w (response_lead_id resp)) k
      end.
Proof.
  intros Hc Hin Hx k Hk.
  destruct (chat_post_payload _ _ _ _ _ _ Hc Hin) as (raw' & Hx' & ->).
  rewrite Hx in Hx'. inversion Hx'; subst raw'. clear Hx'.
  destruct (extracted_record_keyed (interpreter w) raw) as (d & Hd & Hnd).
  unfold payload_of. rewrite Hd. cbn [dict_items].
  rewrite dict_get_set_other by assumption.
  now rewrite dict_get_update.
Qed.

Lemma payload_extracted_wins_witness :
  let raw := pyq "{'lead_id':'someone-else','intent':'sales'}" in
  let w := sample_world (Some raw) true in
  let request := sample_request "thanks" (Some (py "6f1c2a9e")) in
  exists resp trace a p,
    chat w request = (inr resp, trace)
    /\ In (EPost a p) trace
    /\ response_lead_id resp = Some (py "6f1c2a9e")
    /\ dict_get (dict_items p) (key "lead_id") = Some (vstr "someone-else")
    /\ dict_get (dict_items p) (key "source") = Some (vstr "website-chatbot").
Proof.
  intros raw w request.
  eexists _, _, _, _.
  assert (Hc : chat w request
               = (inr (mkChatResponse (py "Hello") (Some (py "6f1c2a9e"))),
                  snd (chat w request))) by reflexivity.
  assert (Hin : In (EPost (py "updateLead")
                      (payload_of w (Some (py "6f1c2a9e")) (extracted_record (interpreter w) raw)
                         (messages request
                          ++ [mkMessage (py "assistant") (py "Hello")])))
                   (snd (chat w request))).
  { vm_compute. do 4 right. left. reflexivity. }
  split; [exact Hc|]. split; [exact Hin|]. split; [reflexivity|].
  split.
  - rewrite (payload_extracted_wins w request _ _ _ _ raw Hc Hin eq_refl
               (key "lead_id")) by discriminate.
    reflexivity.
  - rewrite (payload_extracted_wins w request _ _ _ _ raw Hc Hin eq_refl
               (key "source")) by discriminate.
    reflexivity.
Defined.

(** X8. A run that ends in a response calls the reply backend once, on the
    request's transcript, and then the extraction backend once, on that
    transcript followed by the reply; the reply of the response is the
    reply backend's answer. *)
Theorem backends_called_in_order (w : World) (request : ChatRequest)
    (resp : ChatResponse) (trace : list event) :
  chat w request = (inr resp, trace) ->
  reply_completion w (messages request) = Some (reply resp)
  /\ filter is_backend_call trace
     = [ EReplyCall (messages request);
         EExtractionCall
           (messages request ++ [mkMessage (py "assistant") (reply resp)]) ].
Proof.
  intros Hc.
  destruct (chat_returns_inv _ _ _ _ Hc) as (last & r & raw & Hl & Hr & Hx).
  rewrite (chat_run w request last r raw Hl Hr Hx) in Hc.
  destruct (truthy (lead_id request)); [|destruct (is_phone _ || is_email _)];
    inversion Hc; subst resp trace; split; (exact Hr || reflexivity).
Qed.

Lemma backends_called_in_order_witness :
  let w := sample_world (Some (py "{}")) true in
  let request := sample_request "hi" None in
  chat w request
  = (inr (mkChatResponse (py "Hello") None), snd (chat w request))
  /\ reply_completion w (messages request) = Some (py "Hello")
  /\ filter is_backend_call (snd (chat w request))
     = [ EReplyCall (messages request);
         EExtractionCall
           (messages request ++ [mkMessage (py "assistant") (py "Hello")]) ].
Proof.
  intros w request. split; [reflexivity|].
  exact (backends_called_in_order w request
           (mkChatResponse (py "Hello") None) (snd (chat w request)) eq_refl).
Defined.

(** X9. When the reply backend answers and the extraction backend call
    raises, the request ends in that exception right after the call: no
    identifier is minted and nothing is sent, even for a request that
    carries a [lead_id]. *)
Theorem extraction_failure_propagates (w : World) (request : ChatRequest)
    (last : Message) (r : pystr) :
  getitem_last (messages request) = ret last ->
  reply_completion w (messages request) = Some r ->
  extraction_completion w (messages request ++ [mkMessage (py "assistant") r])
    = None ->
  chat w request
  = (inl BackendError,
     [ EPrintTotal (List.length (messages request));
       EPrintLast (content last);
       EReplyCall (messages request);
       EExtractionCall (messages request ++ [mkMessage (py "assistant") r]) ]).
Proof.
  intros Hl Hr Hx.
  destruct (getitem_last_ret _ _ Hl) as [rest Hrev].
  unfold chat, generate_ai_reply, getitem_last.
  unfold bind at 1 2 3. cbn [emit]. rewrite Hrev. cbn [ret].
  unfold bind at 1 2 3. cbn [emit]. rewrite Hr. cbn [ret].
  unfold bind at 1. unfold extract_lead_data. rewrite Hx.
  reflexivity.
Qed.

Lemma extraction_failure_propagates_witness :
  let w := sample_world None true in
  let request := sample_request "thanks" (Some (py "6f1c2a9e")) in
  getitem_last (messages request) = ret (user_says "thanks")
  /\ reply_completion w (messages request) = Some (py "Hello")
  /\ extraction_completion w
       (messages request ++ [mkMessage (py "assistant") (py "Hello")]) = None
  /\ chat w request
     = (inl BackendError,
        [ EPrintTotal 1; EPrintLast (py "thanks");
          EReplyCall (messages request);
          EExtractionCall
            (messages request ++ [mkMessage (py "assistant") (py "Hello")]) ]).
Proof.
  intros w request.
  split; [reflexivity|]. split; [reflexivity|]. split; [reflexivity|].
  apply (extraction_failure_propagates w request (user_says "thanks") (py "Hello"));
    reflexivity.
Defined.

(** X10. The lifecycle does not depend on the extraction backend: replacing
    it by any backend that answers leaves the response unchanged, and the
    same webhook actions are taken in the same order. *)
Theorem lifecycle_independent_of_extraction (w : World) (request : ChatRequest)
    (resp : ChatResponse) (trace : list event)
    (backend : list Message -> option pystr) (raw' : pystr) :
  chat w request = (inr resp, trace) ->
  backend (messages request ++ [mkMessage (py "assistant") (reply resp)])
    = Some raw' ->
  exists trace',
    chat (with_extraction w backend) request = (inr resp, trace')
    /\ post_actions trace' = post_actions trace.
Proof.
  intros Hc Hb.
  destruct (chat_returns_inv _ _ _ _ Hc) as (last & r & raw & Hl & Hr & Hx).
  rewrite (chat_run w request last r raw Hl Hr Hx) in Hc.
  assert (Hr' : r = reply resp).
  { destruct (truthy (lead_id request)); [|destruct (is_phone _ || is_email _)];
      now inversion Hc. }
  subst r.
  rewrite (chat_run (with_extraction w backend) request last (reply resp) raw'
             Hl Hr Hb).
  cbn [uuid4 with_extraction].
  destruct (truthy (lead_id request)); [|destruct (is_phone _ || is_email _)];
    inversion Hc; subst; eexists; split; reflexivity.
Qed.

Lemma lifecycle_independent_of_extraction_witness :
  let w := sample_world (Some (pyq "{'intent':'sales'}")) true in
  let request := sample_request "a@b.com" None in
  let backend := fun _ : list Message => Some (py "not json at all") in
  chat w request
  = (inr (mkChatResponse (py "Hello") (Some (uuid4 w))), snd (chat w request))
  /\ exists trace',
      chat (with_extraction w backend) request
      = (inr (mkChatResponse (py "Hello") (Some (uuid4 w))), trace')
      /\ post_actions trace' = post_actions (snd (chat w request)).
Proof.
  intros w request backend. split; [reflexivity|].
  exact (lifecycle_independent_of_extraction w request
           (mkChatResponse (py "Hello") (Some (uuid4 w)))
           (snd (chat w request)) backend (py "not json at all")
           eq_refl eq_refl).
Defined.

(** ** app.py: saving a lead *)

Lemma app_auto_save_run (w : World) (msgs : list Message) (raw : pystr) :
  extraction_completion w msgs = Some raw ->
  let extracted := match extract_json_from_text (interpreter w) raw with
                   | inr v => v
                   | inl _ => fallback_record
                   end in
  app.auto_save_lead w msgs
  = match app.qualifies extracted with
    | inl e => (inl e, [EExtractionCall msgs])
    | inr true =>
        (inr tt,
         [ EExtractionCall msgs; EUuid (uuid4 w);
           EPost (py "saveLead") (payload_of w (Some (uuid4 w)) extracted msgs) ])
    | inr false => (inr tt, [EExtractionCall msgs])
    end.
Proof.
  intros Hx extracted. unfold app.auto_save_lead.
  rewrite (extract_lead_data_run w msgs raw Hx). fold extracted.
  unfold app.up, app.seq at 1, app.pure.
  destruct (app.qualifies extracted) as [e|[|]]; cbn [app.seq]; try reflexivity.
  unfold app.seq, app.attempt, app.tell, app.unit, app.throw.
  destruct (post w (py "saveLead") _); reflexivity.
Qed.

Lemma app_chat_run (w : World) (request : app.ChatRequest) (r raw : pystr) :
  reply_completion w (app.messages request) = Some r ->
  extraction_completion w
    (app.messages request ++ [mkMessage (py "assistant") r]) = Some raw ->
  let updated := app.messages request ++ [mkMessage (py "assistant") r] in
  let extracted := match extract_json_from_text (interpreter w) raw with
                   | inr v => v
                   | inl _ => fallback_record
                   end in
  app.chat w request
  = match app.qualifies extracted with
    | inl e => (inl e, [EReplyCall (app.messages request); EExtractionCall updated])
    | inr true =>
        (inr r,
         [ EReplyCall (app.messages request); EExtractionCall updated;
           EUuid (uuid4 w);
           EPost (py "saveLead") (payload_of w (Some (uuid4 w)) extracted updated) ])
    | inr false =>
        (inr r, [EReplyCall (app.messages request); EExtractionCall updated])
    end.
Proof.
  intros Hr Hx updated extracted. unfold app.chat, generate_ai_reply.
  rewrite Hr. unfold bind, emit, ret, app.up. unfold app.seq at 1.
  fold updated. rewrite (app_auto_save_run w updated raw Hx). fold extracted.
  destruct (app.qualifies extracted) as [e|[|]]; reflexivity.
Qed.

(** X11. app.py never saves the fallback record: when the salvage parser
    fails, the reply is returned and nothing is minted or sent. *)
Theorem app_fallback_never_saved (w : World) (request : app.ChatRequest)
    (r raw : pystr) (e : exn) :
  reply_completion w (app.messages request) = Some r ->
  extraction_completion w
    (app.messages request ++ [mkMessage (py "assistant") r]) = Some raw ->
  extract_json_from_text (interpreter w) raw = inl e ->
  app.chat w request
  = (inr r,
     [ EReplyCall (app.messages request);
       EExtractionCall (app.messages request ++ [mkMessage (py "assistant") r]) ]).
Proof.
  intros Hr Hx He. rewrite (app_chat_run w request r raw Hr Hx), He.
  reflexivity.
Qed.

Lemma app_fallback_never_saved_witness :
  let w := sample_world (Some (py "I could not find any details.")) true in
  let request := app.mkChatRequest (py "session-1") [user_says "I need a website"] in
  reply_completion w (app.messages request) = Some (py "Hello")
  /\ extraction_completion w
       (app.messages request ++ [mkMessage (py "assistant") (py "Hello")])
     = Some (py "I could not find any details.")
  /\ extract_json_from_text default_limits (py "I could not find any details.")
     = inl (ValueError "Could not extract valid JSON")
  /\ app.chat w request
     = (inr (py "Hello"),
        [ EReplyCall (app.messages request);
          EExtractionCall
            (app.messages request ++ [mkMessage (py "assistant") (py "Hello")]) ]).
Proof.
  intros w request.
  split; [reflexivity|]. split; [reflexivity|]. split; [reflexivity|].
  apply (app_fallback_never_saved w request (py "Hello")
           (py "I could not find any details.")
           (ValueError "Could not extract valid JSON")); reflexivity.
Defined.

(** X12. app.py has no "ensure dict" step: when the backend's output decodes
    to anything but an object (a list, a string, a number, [null]), the
    first subscript raises [TypeError] and the request fails although the
    reply was generated. *)
Theorem app_non_object_fails (w : World) (request : app.ChatRequest)
    (r raw : pystr) (v : value) :
  reply_completion w (app.messages request) = Some r ->
  extraction_completion w
    (app.messages request ++ [mkMessage (py "assistant") r]) = Some raw ->
  extract_json_from_text (interpreter w) raw = inr v ->
  (forall d, v <> VDict d) ->
  app.chat w request
  = (inl app.TypeError,
     [ EReplyCall (app.messages request);
       EExtractionCall (app.messages request ++ [mkMessage (py "assistant") r]) ]).
Proof.
  intros Hr Hx Hv Hd. rewrite (app_chat_run w request r raw Hr Hx), Hv.
  destruct v; try reflexivity. exfalso. now apply (Hd items).
Qed.

Lemma app_non_object_fails_witness :
  let raw := pyq "[{'intent':'sales'}]" in
  let w := sample_world (Some raw) true in
  let request := app.mkChatRequest (py "session-1") [user_says "I need a website"] in
  reply_completion w (app.messages request) = Some (py "Hello")
  /\ extract_json_from_text (interpreter w) raw
     = inr (VList [VDict [(key "intent", vstr "sales")]])
  /\ app.chat w request
     = (inl app.TypeError,
        [ EReplyCall (app.messages request);
          EExtractionCall
            (app.messages request ++ [mkMessage (py "assistant") (py "Hello")]) ]).
Proof.
  intros raw w request.
  split; [reflexivity|]. split; [reflexivity|].
  apply (app_non_object_fails w request (py "Hello") raw
           (VList [VDict [(key "intent", vstr "sales")]]));
    try reflexivity. discriminate.
Defined.

(** X13. A decoded object without [intent] makes the request fail with
    [KeyError]. *)
Theorem app_missing_intent_fails (w : World) (request : app.ChatRequest)
    (r raw : pystr) (d : list (ustr * value)) :
  reply_completion w (app.messages request) = Some r ->
  extraction_completion w
    (app.messages request ++ [mkMessage (py "assistant") r]) = Some raw ->
  extract_json_from_text (interpreter w) raw = inr (VDict d) ->
  dict_get d (key "intent") = None ->
  app.chat w request
  = (inl (app.KeyError (key "intent")),
     [ EReplyCall (app.messages request);
       EExtractionCall (app.messages request ++ [mkMessage (py "assistant") r]) ]).
Proof.
  intros Hr Hx Hv Hk. rewrite (app_chat_run w request r raw Hr Hx), Hv.
  unfold app.qualifies, app.getitem. now rewrite Hk.
Qed.

Lemma app_missing_intent_fails_witness :
  let raw := pyq "{'lead_score': 90}" in
  let w := sample_world (Some raw) true in
  let request := app.mkChatRequest (py "session-1") [user_says "I need a website"] in
  reply_completion w (app.messages request) = Some (py "Hello")
  /\ extract_json_from_text (interpreter w) raw = inr (VDict [(key "lead_score", VNum (py "90"))])
  /\ app.chat w request
     = (inl (app.KeyError (key "intent")),
        [ EReplyCall (app.messages request);
          EExtractionCall
            (app.messages request ++ [mkMessage (py "assistant") (py "Hello")]) ]).
Proof.
  intros raw w request.
  split; [reflexivity|]. split; [reflexivity|].
  apply (app_missing_intent_fails w request (py "Hello") raw
           [(key "lead_score", VNum (py "90"))]); reflexivity.
Defined.

(** X14. An [intent] other than the string [sales] ends the test at once:
    the reply is returned and nothing is sent, whatever the other keys
    hold and even when they are missing. *)
Theorem app_other_intent_not_saved (w : World) (request : app.ChatRequest)
    (r raw : pystr) (d : list (ustr * value)) (intent : value) :
  reply_completion w (app.messages request) = Some r ->
  extraction_completion w
    (app.messages request ++ [mkMessage (py "assistant") r]) = Some raw ->
  extract_json_from_text (interpreter w) raw = inr (VDict d) ->
  dict_get d (key "intent") = Some intent ->
  intent <> vstr "sales" ->
  app.chat w request
  = (inr r,
     [ EReplyCall (app.messages request);
       EExtractionCall (app.messages request ++ [mkMessage (py "assistant") r]) ]).
Proof.
  intros Hr Hx Hv Hk Hne. rewrite (app_chat_run w request r raw Hr Hx), Hv.
  unfold app.qualifies, app.getitem. rewrite Hk.
  assert (E : eq_str intent "sales" = false).
  { destruct intent; try reflexivity. unfold eq_str.
    apply ustr_eqb_neq. intros H. apply Hne. unfold vstr. now rewrite H. }
  now rewrite E.
Qed.

Lemma app_other_intent_not_saved_witness :
  let raw := pyq "{'intent':'support'}" in
  let w := sample_world (Some raw) true in
  let request := app.mkChatRequest (py "session-1") [user_says "My site is down"] in
  reply_completion w (app.messages request) = Some (py "Hello")
  /\ extract_json_from_text (interpreter w) raw = inr (VDict [(key "intent", vstr "support")])
  /\ vstr "support" <> vstr "sales"
  /\ app.chat w request
     = (inr (py "Hello"),
        [ EReplyCall (app.messages request);
          EExtractionCall
            (app.messages request ++ [mkMessage (py "assistant") (py "Hello")]) ]).
Proof.
  intros raw w request.
  split; [reflexivity|]. split; [reflexivity|]. split; [discriminate|].
  apply (app_other_intent_not_saved w request (py "Hello") raw
           [(key "intent", vstr "support")] (vstr "support"));
    try reflexivity. discriminate.
Defined.

Lemma app_chat_backend_failure (w : World) (request : app.ChatRequest) :
  (reply_completion w (app.messages request) = None ->
   app.chat w request
   = (inl (app.Raised BackendError), [EReplyCall (app.messages request)]))
  /\ (forall r,
         reply_completion w (app.messages request) = Some r ->
         extraction_completion w
           (app.messages request ++ [mkMessage (py "assistant") r]) = None ->
         app.chat w request
         = (inl (app.Raised BackendError),
            [ EReplyCall (app.messages request);
              EExtractionCall
                (app.messages request ++ [mkMessage (py "assistant") r]) ])).
Proof.
  split.
  - intros Hr. unfold app.chat, generate_ai_reply. rewrite Hr. reflexivity.
  - intros r Hr Hx. unfold app.chat, generate_ai_reply. rewrite Hr.
    unfold bind, emit, ret, app.up. unfold app.seq at 1.
    unfold app.auto_save_lead, extract_lead_data. rewrite Hx. reflexivity.
Qed.

Lemma qualifies_true_inv (v : value) :
  app.qualifies v = inr true ->
  exists d service score,
    v = VDict d
    /\ dict_get d (key "intent") = Some (vstr "sales")
    /\ dict_get d (key "service_interest") = Some service
    /\ value_truth service = true
    /\ dict_get d (key "lead_score") = Some score
    /\ app.ge_60 score = inr true
    /\ ((exists b, dict_get d (key "budget_range") = Some b
                   /\ b <> vstr "unknown")
        \/ (exists t, dict_get d (key "timeline") = Some t
                      /\ t <> vstr "unknown")).
Proof.
  assert (Heq : forall x s, eq_str x s = true -> x = vstr s).
  { intros x s H. destruct x; try discriminate.
    apply ustr_eqb_eq in H. unfold vstr, key in *. now subst. }
  assert (Hne : forall x s, eq_str x s = false -> x <> vstr s).
  { intros x s H ->. unfold eq_str, vstr, key in H.
    now rewrite ustr_eqb_refl in H. }
  unfold app.qualifies, app.getitem. intros H.
  destruct v as [| | | | |d]; try discriminate.
  destruct (dict_get d (key "intent")) as [intent|] eqn:Ei; [|discriminate].
  destruct (eq_str intent "sales") eqn:Es; [|discriminate]. cbn [negb] in H.
  apply Heq in Es. subst intent.
  destruct (dict_get d (key "service_interest")) as [service|] eqn:Ev;
    [|discriminate].
  destruct (value_truth service) eqn:Et; [|discriminate]. cbn [negb] in H.
  destruct (dict_get d (key "lead_score")) as [score|] eqn:El; [|discriminate].
  destruct (app.ge_60 score) as [e|[|]] eqn:Eg; try discriminate.
  exists d, service, score. repeat (split; [reflexivity || assumption|]).
  destruct (dict_get d (key "budget_range")) as [b|] eqn:Eb; [|discriminate].
  destruct (eq_str b "unknown") eqn:Eu; cbn [negb] in H.
  - right.
    destruct (dict_get d (key "timeline")) as [t|] eqn:Etl; [|discriminate].
    injection H as Ht. apply negb_true_iff in Ht.
    exists t. split; [reflexivity | now apply Hne].
  - left. exists b. split; [reflexivity | now apply Hne].
Qed.

(** X15. app.py sends nothing but qualified leads: every webhook call is a
    [saveLead] for a decoded object whose [intent] is the string [sales],
    whose [service_interest] is true, whose [lead_score] is a number at
    least 60, and whose [budget_range] or [timeline] is something other
    than the string [unknown]. *)
Theorem app_saves_only_qualified (w : World) (request : app.ChatRequest)
    (a : pystr) (p : value) :
  In (EPost a p) (snd (app.chat w request)) ->
  a = py "saveLead"
  /\ exists r raw d service score,
      reply_completion w (app.messages request) = Some r
      /\ extraction_completion w
           (app.messages request ++ [mkMessage (py "assistant") r]) = Some raw
      /\ extract_json_from_text (interpreter w) raw = inr (VDict d)
      /\ dict_get d (key "intent") = Some (vstr "sales")
      /\ dict_get d (key "service_interest") = Some service
      /\ value_truth service = true
      /\ dict_get d (key "lead_score") = Some score
      /\ app.ge_60 score = inr true
      /\ ((exists b, dict_get d (key "budget_range") = Some b
                     /\ b <> vstr "unknown")
          \/ (exists t, dict_get d (key "timeline") = Some t
                        /\ t <> vstr "unknown")).
Proof.
  intros Hin.
  destruct (app_chat_backend_failure w request) as [Hnone Hsome].
  destruct (reply_completion w (app.messages request)) as [r|] eqn:Hr.
  2:{ rewrite (Hnone eq_refl) in Hin. simpl in Hin.
      destruct Hin as [Hin|[]]. discriminate. }
  destruct (extraction_completion w
              (app.messages request ++ [mkMessage (py "assistant") r]))
    as [raw|] eqn:Hx.
  2:{ rewrite (Hsome r eq_refl Hx) in Hin. simpl in Hin.
      repeat (destruct Hin as [Hin|Hin]; [discriminate|]). contradiction. }
  rewrite (app_chat_run w request r raw Hr Hx) in Hin.
  destruct (extract_json_from_text (interpreter w) raw) as [e|v] eqn:Ev.
  { change (app.qualifies fallback_record) with (@inr app.error bool false) in Hin.
    simpl in Hin. repeat (destruct Hin as [Hin|Hin]; [discriminate|]).
    contradiction. }
  destruct (app.qualifies v) as [e|[|]] eqn:Eq; simpl in Hin;
    repeat (destruct Hin as [Hin|Hin]; [try discriminate|]);
    try contradiction.
  injection Hin as Ha Hp. split; [now symmetry|].
  apply qualifies_true_inv in Eq.
  destruct Eq as (d & service & score & Hv & Hrest).
  subst v. exists r, raw, d, service, score.
  split; [reflexivity|]. split; [exact Hx|]. split; [exact Ev|].
  exact Hrest.
Qed.

Lemma app_saves_only_qualified_witness :
  let raw := pyq "{'intent':'sales','service_interest':'SEO','lead_score':75,'budget_range':'high'}" in
  let w := sample_world (Some raw) true in
  let request := app.mkChatRequest (py "session-1") [user_says "We need SEO"] in
  exists a p,
    In (EPost a p) (snd (app.chat w request))
    /\ a = py "saveLead".
Proof.
  intros raw w request.
  eexists _, _.
  assert (Hin : In (EPost (py "saveLead")
                      (payload_of w (Some (uuid4 w))
                         (VDict [ (key "intent", vstr "sales");
                                  (key "service_interest", vstr "SEO");
                                  (key "lead_score", VNum (py "75"));
                                  (key "budget_range", vstr "high") ])
                         (app.messages request
                          ++ [mkMessage (py "assistant") (py "Hello")])))
                   (snd (app.chat w request))).
  { vm_compute. do 3 right. left. reflexivity. }
  split; [exact Hin|].
  exact (proj1 (app_saves_only_qualified w request _ _ Hin)).
Defined.

(** X16. A qualified lead whose [budget_range] is known is saved without its
    [timeline] being looked at: the object may lack that key.  One
    identifier is minted and one [saveLead] is sent with it. *)
Theorem app_saves_on_known_budget (w : World) (request : app.ChatRequest)
    (r raw : pystr) (d : list (ustr * value)) (service score budget : value) :
  reply_completion w (app.messages request) = Some r ->
  extraction_completion w
    (app.messages request ++ [mkMessage (py "assistant") r]) = Some raw ->
  extract_json_from_text (interpreter w) raw = inr (VDict d) ->
  dict_get d (key "intent") = Some (vstr "sales") ->
  dict_get d (key "service_interest") = Some service ->
  value_truth service = true ->
  dict_get d (key "lead_score") = Some score ->
  app.ge_60 score = inr true ->
  dict_get d (key "budget_range") = Some budget ->
  budget <> vstr "unknown" ->
  let updated := app.messages request ++ [mkMessage (py "assistant") r] in
  app.chat w request
  = (inr r,
     [ EReplyCall (app.messages request); EExtractionCall updated;
       EUuid (uuid4 w);
       EPost (py "saveLead") (payload_of w (Some (uuid4 w)) (VDict d) updated) ]).
Proof.
  intros Hr Hx Hv Hi Hs Ht Hl Hg Hb Hne updated.
  rewrite (app_chat_run w request r raw Hr Hx), Hv.
  unfold app.qualifies, app.getitem. rewrite Hi.
  change (eq_str (vstr "sales") "sales") with true. cbn [negb].
  rewrite Hs, Ht. cbn [negb]. rewrite Hl, Hg, Hb.
  assert (E : eq_str budget "unknown" = false).
  { destruct budget; try reflexivity. unfold eq_str.
    apply ustr_eqb_neq. intros H. apply Hne. unfold vstr. now rewrite H. }
  now rewrite E.
Qed.

Lemma app_saves_on_known_budget_witness :
  let raw := pyq "{'intent':'sales','service_interest':'SEO','lead_score':6e1,'budget_range':'high'}" in
  let d := [ (key "intent", vstr "sales"); (key "service_interest", vstr "SEO");
             (key "lead_score", VNum (py "6e1")); (key "budget_range", vstr "high") ] in
  let w := sample_world (Some raw) false in
  let request := app.mkChatRequest (py "session-1") [user_says "We need SEO"] in
  let updated := app.messages request ++ [mkMessage (py "assistant") (py "Hello")] in
  extract_json_from_text (interpreter w) raw = inr (VDict d)
  /\ dict_get d (key "timeline") = None
  /\ app.ge_60 (VNum (py "6e1")) = inr true
  /\ app.chat w request
     = (inr (py "Hello"),
        [ EReplyCall (app.messages request); EExtractionCall updated;
          EUuid (uuid4 w);
          EPost (py "saveLead") (payload_of w (Some (uuid4 w)) (VDict d) updated) ]).
Proof.
  intros raw d w request updated.
  split; [reflexivity|]. split; [reflexivity|]. split; [reflexivity|].
  apply (app_saves_on_known_budget w request (py "Hello") raw d
           (vstr "SEO") (VNum (py "6e1")) (vstr "high"));
    try reflexivity. discriminate.
Defined.

(** X17. In app.py the webhook cannot be seen from outside either: result
    and trace are the same whatever the webhook does, and a request sends
    at most one call, always a [saveLead]. *)
Theorem app_webhook_invisible (w : World) (request : app.ChatRequest)
    (gateway : pystr -> value -> bool) :
  app.chat (with_post w gateway) request = app.chat w request
  /\ (post_actions (snd (app.chat w request)) = []
      \/ post_actions (snd (app.chat w request)) = [py "saveLead"]).
Proof.
  destruct (app_chat_backend_failure w request) as [Hnone Hsome].
  destruct (app_chat_backend_failure (with_post w gateway) request)
    as [Hnone' Hsome'].
  cbn [with_post reply_completion extraction_completion] in Hnone', Hsome'.
  destruct (reply_completion w (app.messages request)) as [r|] eqn:Hr.
  2:{ rewrite (Hnone eq_refl), (Hnone' eq_refl). split; [reflexivity | now left]. }
  destruct (extraction_completion w
              (app.messages request ++ [mkMessage (py "assistant") r]))
    as [raw|] eqn:Hx.
  2:{ rewrite (Hsome r eq_refl Hx), (Hsome' r eq_refl Hx).
      split; [reflexivity | now left]. }
  rewrite (app_chat_run w request r raw Hr Hx).
  rewrite (app_chat_run (with_post w gateway) request r raw Hr Hx).
  destruct (app.qualifies _) as [e|[|]];
    (split; [reflexivity | (now left) || (now right)]).
Qed.

(** X18. A [lead_score] that is not a number (a string such as ["80"],
    [null], a list, an object) cannot be compared with 60: once [intent]
    and [service_interest] have passed, the request fails with
    [TypeError]. *)
Theorem app_score_not_a_number_fails (w : World) (request : app.ChatRequest)
    (r raw : pystr) (d : list (ustr * value)) (service score : value) :
  reply_completion w (app.messages request) = Some r ->
  extraction_completion w
    (app.messages request ++ [mkMessage (py "assistant") r]) = Some raw ->
  extract_json_from_text (interpreter w) raw = inr (VDict d) ->
  dict_get d (key "intent") = Some (vstr "sales") ->
  dict_get d (key "service_interest") = Some service ->
  value_truth service = true ->
  dict_get d (key "lead_score") = Some score ->
  match score with VNum _ | VBool _ => False | _ => True end ->
  app.chat w request
  = (inl app.TypeError,
     [ EReplyCall (app.messages request);
       EExtractionCall (app.messages request ++ [mkMessage (py "assistant") r]) ]).
Proof.
  intros Hr Hx Hv Hi Hs Ht Hl Hn.
  rewrite (app_chat_run w request r raw Hr Hx), Hv.
  unfold app.qualifies, app.getitem. rewrite Hi.
  change (eq_str (vstr "sales") "sales") with true. cbn [negb].
  rewrite Hs, Ht. cbn [negb]. rewrite Hl.
  destruct score; try contradiction; reflexivity.
Qed.

Lemma app_score_not_a_number_fails_witness :
  let raw := pyq "{'intent':'sales','service_interest':'SEO','lead_score':'80'}" in
  let d := [ (key "intent", vstr "sales"); (key "service_interest", vstr "SEO");
             (key "lead_score", vstr "80") ] in
  let w := sample_world (Some raw) true in
  let request := app.mkChatRequest (py "session-1") [user_says "We need SEO"] in
  extract_json_from_text (interpreter w) raw = inr (VDict d)
  /\ app.chat w request
     = (inl app.TypeError,
        [ EReplyCall (app.messages request);
          EExtractionCall
            (app.messages request ++ [mkMessage (py "assistant") (py "Hello")]) ]).
Proof.
  intros raw d w request.
  split; [reflexivity|].
  apply (app_score_not_a_number_fails w request (py "Hello") raw d
           (vstr "SEO") (vstr "80")); first [reflexivity | exact I].
Defined.

Lemma fenced_object_round_trip_witness :
  let inner := pyq "'ai_summary':'Uses `code` in text','lead_score':70" in
  let body := "{" :: inner ++ ["}"] in
  str.contains body (py "```") = false
  /\ json.loads default_limits body
     = inr (VDict [ (key "ai_summary", vstr "Uses `code` in text");
                    (key "lead_score", VNum (py "70")) ])
  /\ extract_json_from_text default_limits (fenced body)
     = inr (VDict [ (key "ai_summary", vstr "Uses `code` in text");
                    (key "lead_score", VNum (py "70")) ]).
Proof.
  intros inner body.
  split; [reflexivity|]. split; [reflexivity|].
  apply (fenced_object_round_trip default_limits inner); reflexivity.
Defined.
